(** * kubearmor-client, package [recommend]: image archive extraction and
      manifest resolution ([recommend/imageHandler.go])

    A shallow embedding of [randString], [sanitizeArchivePath],
    [extractTar], [checkForSpec], [getFileBytes], [readManifest],
    [getImageInfo] and of the extraction and resolution steps of
    [getImageDetails], followed by the properties of the image-inspection
    specification that are stated about them (C1 to C10) and by further
    properties of the same functions (X1 to X20).

    Conventions.
    - Go strings and byte slices are [string] (names, paths, messages) and
      [list ascii] (file contents).
    - The file system is a finite map from cleaned paths to nodes; every
      function that touches it takes the map and returns the new one.
      Regular files carry their nine permission bits, which are checked
      for a process that is not privileged; the files are taken to be the
      process's own, and directories to be accessible to it.
    - [log.Fatal] ends the process: in the extractor it is the outcome
      [Fatal], which keeps the message and the file system that the process
      leaves behind, and in the resolver the ending [Exited].  A failed
      type assertion or [regexp.MustCompile] is the ending [Panicked].
    - The Go standard library is not part of the repository.  [path/filepath],
      [strings] and [os] are modelled from their documentation.  The
      decoders of [archive/tar] and [encoding/json], the function
      [regexp.MustCompile] and the random source of [math/rand] are
      parameters of the model, so that every general statement holds for
      any of them; [Module Regexp], [Module ustar] and [Module jsontext]
      give the instances on which the examples run.
    - The docker client is not modelled: [pullImage], [saveImageToTar] and
      [getAuthStr] are left out, and [getImageDetails] starts from the
      archive that [saveImageToTar] has written. *)

From stdpp Require Import gmap strings list.
From Stdlib Require Import ZArith NArith Ascii.

Local Open Scope string_scope.
Local Open Scope list_scope.

(* ================================================================== *)
(** * Strings: [strings.HasPrefix], [strings.HasSuffix] *)
(* ================================================================== *)

(** [strings.HasPrefix(s, prefix)]: [len(s) >= len(prefix) &&
    s[:len(prefix)] == prefix]. *)
Fixpoint HasPrefix (s pre : string) {struct pre} : bool :=
  match pre, s with
  | EmptyString, _ => true
  | String a pre', String b s' => Ascii.eqb a b && HasPrefix s' pre'
  | String _ _, EmptyString => false
  end.

(** [strings.HasSuffix(s, suffix)]: [len(s) >= len(suffix) &&
    s[len(s)-len(suffix):] == suffix]. *)
Definition HasSuffix (s suffix : string) : bool :=
  (String.length suffix <=? String.length s)%nat &&
  String.eqb
    (String.substring (String.length s - String.length suffix)
                      (String.length suffix) s)
    suffix.

(* ================================================================== *)
(** * Paths: [filepath.Clean], [filepath.Join] (Unix separator) *)
(* ================================================================== *)

Definition Separator : ascii := "/"%char.

(** [strings.Split(path, "/")]: the elements between separators, empty
    ones included. *)
Fixpoint splitPath (path : string) : list string :=
  match path with
  | EmptyString => [EmptyString]
  | String c rest =>
      if Ascii.eqb c Separator then EmptyString :: splitPath rest
      else match splitPath rest with
           | e :: es => String c e :: es
           | [] => [String c EmptyString]
           end
  end.

Fixpoint joinPath (elems : list string) : string :=
  match elems with
  | [] => EmptyString
  | [e] => e
  | e :: es => e +:+ String Separator (joinPath es)
  end.

Definition isRooted (path : string) : bool :=
  match path with
  | String c _ => Ascii.eqb c Separator
  | EmptyString => false
  end.

Definition dotdot : string := "..".

(** One element of [Clean]'s scan.  [out] is the output so far, last
    element first.  Empty elements and [.] are dropped; [..] removes the
    element before it, is dropped at the root, and is kept at the start of
    a path that is not rooted. *)
Definition cleanStep (rooted : bool) (out : list string) (e : string) : list string :=
  if String.eqb e EmptyString then out
  else if String.eqb e "." then out
  else if String.eqb e dotdot then
    match out with
    | top :: out' => if String.eqb top dotdot then dotdot :: out else out'
    | [] => if rooted then [] else [dotdot]
    end
  else e :: out.

(** The elements of the cleaned path, first element first. *)
Definition cleanElems (path : string) : list string :=
  rev (fold_left (cleanStep (isRooted path)) (splitPath path) []).

(** A path from its elements: [/] before a rooted path, and [.] for the
    empty relative path. *)
Definition renderPath (rooted : bool) (elems : list string) : string :=
  if rooted then String Separator (joinPath elems)
  else match elems with
       | [] => "."
       | _ => joinPath elems
       end.

(** [filepath.Clean]: the shortest path equivalent to [path] by purely
    lexical processing. *)
Definition Clean (path : string) : string :=
  renderPath (isRooted path) (cleanElems path).

(** [filepath.Join(d, t)]: empty elements are ignored, the rest is joined
    with the separator and cleaned; the empty string when both are empty. *)
Definition Join (d t : string) : string :=
  if String.eqb d EmptyString then
    if String.eqb t EmptyString then EmptyString else Clean t
  else Clean (d +:+ String Separator t).

(** What the proofs about [Clean] say of path elements: no separator
    inside, and an element that [Clean] keeps is neither empty nor a dot. *)
Fixpoint noSlash (e : string) : bool :=
  match e with
  | EmptyString => true
  | String c e' => negb (Ascii.eqb c Separator) && noSlash e'
  end.

Definition keptElem (e : string) : Prop :=
  noSlash e = true /\ e <> EmptyString /\ e <> ".".

(** The output of [Clean]'s scan, last element first: elements that are
    kept, with the [..] elements, none of them in a rooted path, below the
    others. *)
Definition scanned (rooted : bool) (out : list string) : Prop :=
  exists normals k,
    out = normals ++ replicate k dotdot
    /\ Forall keptElem normals
    /\ Forall (fun e => e <> dotdot) normals
    /\ (rooted = true -> k = O).

(** The elements of a name that [Clean] keeps when none of them is [..]:
    all but the empty ones and the dots. *)
Definition keptOf (t : string) : list string :=
  List.filter (fun e => negb (String.eqb e EmptyString) && negb (String.eqb e "."))
              (splitPath t).

(* ================================================================== *)
(** * [randString] *)
(* ================================================================== *)

Definition letterRunes : list ascii :=
  String.list_ascii_of_string "abcdefghijklmnopqrstuvwxyzABCDEFGHIJKLMNOPQRSTUVWXYZ".

(** The loop of [randString(n)] from its [i]-th step on.  [Intn i] is what
    the call of [rand.Intn(len(letterRunes))] in step [i] returns; an
    index outside [letterRunes] would be a panic, which is [None]. *)
Fixpoint randRunes (Intn : nat -> nat) (i n : nat) : option (list ascii) :=
  match n with
  | O => Some []
  | S n' =>
      match letterRunes !! Intn i, randRunes Intn (S i) n' with
      | Some c, Some cs => Some (c :: cs)
      | _, _ => None
      end
  end.

Definition randString (Intn : nat -> nat) (n : nat) : option string :=
  match randRunes Intn O n with
  | Some b => Some (String.string_of_list_ascii b)
  | None => None
  end.

Definition isLetter (c : ascii) : bool :=
  let n := nat_of_ascii c in
  ((65 <=? n) && (n <=? 90) || (97 <=? n) && (n <=? 122))%nat.

(* ================================================================== *)
(** * [sanitizeArchivePath] *)
(* ================================================================== *)

(** The error [fmt.Errorf("%s: %s", "content filepath is tainted", t)]. *)
Definition tainted (t : string) : string :=
  "content filepath is tainted: " +:+ t.

(** [sanitizeArchivePath(d, t)]: the joined path when it has the cleaned
    root as a prefix, an error otherwise. *)
Definition sanitizeArchivePath (d t : string) : string + string :=
  let v := Join d t in
  if HasPrefix v (Clean d) then inl v
  else inr (tainted t).

(* ================================================================== *)
(** * The file system *)
(* ================================================================== *)

(** A node is a directory or a regular file with its nine permission bits
    and its contents.  There are no symbolic links (the extractor creates
    none). *)
Inductive node : Type :=
| Dir
| File (mode : Z) (data : list ascii).

(** The process: its file mode creation mask, and whether it is
    privileged, in which case the permission bits of a file are not
    checked.  The files are taken to be the process's own, so the bits that
    count are the owner's.  The permission bits of directories are not
    modelled: every directory is taken to be accessible to the process. *)
Record process : Type := mkProcess {
  umask : Z;
  privileged : bool
}.

(** The mode that a file is created with: the nine permission bits of
    [os.FileMode(mode)], less the bits of the mask. *)
Definition createdMode (proc : process) (mode : Z) : Z :=
  Z.ldiff (Z.land mode 511) (umask proc).

(** The owner may read: bit [0400]. *)
Definition mayRead (proc : process) (mode : Z) : bool :=
  privileged proc || Z.testbit mode 8.

(** The owner may read and write: bits [0400] and [0200]. *)
Definition mayReadWrite (proc : process) (mode : Z) : bool :=
  privileged proc || (Z.testbit mode 8 && Z.testbit mode 7).

#[global] Instance node_eq_dec : EqDecision node.
Proof. solve_decision. Defined.

Abbreviation FS := (gmap string node).

(** The root and the working directory always exist. *)
Definition lookupPath (fs : FS) (p : string) : option node :=
  if String.eqb p "/" then Some Dir
  else if String.eqb p "." then Some Dir
  else fs !! p.

(** [os.Stat(p)] succeeds. *)
Definition Stat (fs : FS) (p : string) : bool :=
  match lookupPath fs p with
  | Some _ => true
  | None => false
  end.

(** [os.MkdirAll] over the elements of the path, last element first: the
    nearest existing ancestor must be a directory; every missing directory
    below it is created. *)
Fixpoint mkdirAllElems (rooted : bool) (fs : FS) (revElems : list string) : option FS :=
  let p := renderPath rooted (rev revElems) in
  match lookupPath fs p with
  | Some Dir => Some fs
  | Some (File _ _) => None
  | None =>
      match revElems with
      | [] => Some fs
      | _ :: parent =>
          match mkdirAllElems rooted fs parent with
          | Some fs' => Some (<[p := Dir]> fs')
          | None => None
          end
      end
  end.

Definition MkdirAll (fs : FS) (p : string) : option FS :=
  mkdirAllElems (isRooted p) fs (rev (cleanElems p)).

(** [filepath.Dir]: the path without its last element. *)
Definition parentPath (p : string) : string :=
  renderPath (isRooted p) (removelast (cleanElems p)).

(** [os.OpenFile(p, os.O_CREATE|os.O_RDWR, mode)]: an existing regular file
    that the process may read and write is opened as it is (there is no
    [O_TRUNC], and its mode stays); a directory cannot be opened for
    writing; a missing file is created empty, with the permission bits of
    [mode] less the mask, when its parent is a directory. *)
Definition OpenFile (proc : process) (fs : FS) (p : string) (mode : Z) : option FS :=
  match lookupPath fs p with
  | Some (File perm _) => if mayReadWrite proc perm then Some fs else None
  | Some Dir => None
  | None =>
      match lookupPath fs (parentPath p) with
      | Some Dir => Some (<[p := File (createdMode proc mode) []]> fs)
      | _ => None
      end
  end.

(** Writing [new] from offset 0 over [old]: what lies beyond the bytes
    written stays. *)
Definition overwrite (old new : list ascii) : list ascii :=
  new ++ drop (length new) old.

(** The bytes written through the handle that [OpenFile] returned. *)
Definition writeFile (fs : FS) (p : string) (new : list ascii) : FS :=
  match fs !! p with
  | Some (File mode old) => <[p := File mode (overwrite old new)]> fs
  | _ => fs
  end.

(** What opening a file with [os.Open] and reading all of it gives: the
    open failed, the read failed, or the bytes of the file. *)
Inductive fileBytes : Type :=
| OpenFailed
| ReadFailed
| Bytes (barr : list ascii).

(** [os.Open(p)] and the reads that follow.  A file that the process may
    not read cannot be opened; a directory can be opened and cannot be
    read. *)
Definition readFile (proc : process) (fs : FS) (p : string) : fileBytes :=
  match lookupPath fs p with
  | None => OpenFailed
  | Some Dir => ReadFailed
  | Some (File perm data) => if mayRead proc perm then Bytes data else OpenFailed
  end.

(* ================================================================== *)
(** * Outcomes *)
(* ================================================================== *)

Inductive outcome (A : Type) : Type :=
| Ok (a : A)
    (** the function returned *)
| Fatal (msg : string) (fs : FS)
    (** [log.Fatal]: the process exited, leaving [fs] *)
| OutOfFuel
    (** the nesting of layer archives is deeper than the fuel given *)
| Unmodelled.
    (** an entry would overwrite an archive that is still being read *)

Arguments Ok {A} a.
Arguments Fatal {A} msg fs.
Arguments OutOfFuel {A}.
Arguments Unmodelled {A}.

(** The file system an outcome leaves, when it leaves one. *)
Definition outcomeFS {A : Type} (get : A -> FS) (o : outcome A) : option FS :=
  match o with
  | Ok a => Some (get a)
  | Fatal _ fs => Some fs
  | OutOfFuel | Unmodelled => None
  end.

(* ================================================================== *)
(** * Tar streams *)
(* ================================================================== *)

Module tar.

(** [tar.Header], the fields the extractor reads. *)
Record Header : Type := mkHeader {
  Name : string;
  Typeflag : ascii;
  Mode : Z
}.

Definition TypeReg : ascii := "0"%char.
Definition TypeDir : ascii := "5"%char.

(** What a [tar.Reader] delivers.  [EOF]: [Next] returns [io.EOF].
    [Err]: [Next] returns another error.  [Entry hdr body clean rest]:
    [Next] returns [hdr]; reading the entry yields [body] and then [io.EOF]
    when [clean], a read error otherwise; [rest] is what follows. *)
Inductive Reader : Type :=
| EOF
| Err
| Entry (hdr : Header) (body : list ascii) (clean : bool) (rest : Reader).

End tar.

(** The byte budget of one copy: [2e+8] in [io.CopyN(f, tr, 2e+8)]. *)
Definition copyLimit : N := 200000000.

(** The files, then the directories, that [extractTar] returns, with the
    file system it leaves. *)
Definition inventory : Type := FS * list string * list string.

Definition inventoryFS (r : inventory) : FS := fst (fst r).
Definition inventoryFiles (r : inventory) : list string := snd (fst r).
Definition inventoryDirs (r : inventory) : list string := snd r.

Section Extractor.

Variable proc : process.

(** The package variable [tempDir]: the extraction root. *)
Variable tempDir : string.

(** [tar.NewReader] over the bytes of a file. *)
Variable tarDecode : list ascii -> tar.Reader.

(** The loop of [extractTar] over the entries that remain.  [rec] is the
    recursive call on a nested layer; [reading] lists the archives that
    are open, this one and the enclosing ones. *)
Fixpoint extractEntries (rec : FS -> string -> outcome inventory)
    (reading : list string) (tr : tar.Reader)
    (fs : FS) (fl dl : list string) : outcome inventory :=
  match tr with
  | tar.EOF => Ok (fs, fl, dl)
  | tar.Err => Fatal "tar next failed" fs
  | tar.Entry hdr body clean rest =>
      match sanitizeArchivePath tempDir (tar.Name hdr) with
      | inr _ => extractEntries rec reading rest fs fl dl
      | inl tgt =>
          if Ascii.eqb (tar.Typeflag hdr) tar.TypeDir then
            if Stat fs tgt then extractEntries rec reading rest fs fl (dl ++ [tgt])
            else
              match MkdirAll fs tgt with
              | None => Fatal "tar mkdirall" fs
              | Some fs1 => extractEntries rec reading rest fs1 fl (dl ++ [tgt])
              end
          else if Ascii.eqb (tar.Typeflag hdr) tar.TypeReg then
            if existsb (String.eqb (Clean tgt)) reading then Unmodelled
            else
              match OpenFile proc fs (Clean tgt) (tar.Mode hdr) with
              | None => Fatal "tar open file" fs
              | Some fs1 =>
                  if (copyLimit <=? N.of_nat (length body))%N then
                    Fatal "tar io.Copy()"
                          (writeFile fs1 (Clean tgt) (take (N.to_nat copyLimit) body))
                  else if negb clean then
                    Fatal "tar io.Copy()" (writeFile fs1 (Clean tgt) body)
                  else
                    let fs2 := writeFile fs1 (Clean tgt) body in
                    if HasSuffix tgt "layer.tar" then
                      match rec fs2 tgt with
                      | Ok (fs3, ifl, idl) =>
                          extractEntries rec reading rest fs3 (fl ++ ifl) (dl ++ idl)
                      | failed => failed
                      end
                    else extractEntries rec reading rest fs2 (fl ++ [tgt]) dl
              end
          else extractEntries rec reading rest fs fl dl
      end
  end.

(** [extractTar(tarname)], with the archives that enclosing calls are
    reading.  A directory can be opened, and the first read from it
    fails. *)
Fixpoint extractTarIn (fuel : nat) (reading : list string)
    (fs : FS) (tarname : string) : outcome inventory :=
  match fuel with
  | O => OutOfFuel
  | S fuel' =>
      match readFile proc fs (Clean tarname) with
      | OpenFailed => Fatal "os create failed" fs
      | ReadFailed => Fatal "tar next failed" fs
      | Bytes data =>
          let reading' := Clean tarname :: reading in
          extractEntries (extractTarIn fuel' reading') reading'
                         (tarDecode data) fs [] []
      end
  end.

Definition extractTar (fuel : nat) (fs : FS) (tarname : string) : outcome inventory :=
  extractTarIn fuel [] fs tarname.

End Extractor.

(* ================================================================== *)
(** * Regular expressions: a matcher for the plain part of [regexp] *)
(* ================================================================== *)

Module Regexp.

(** The operators of [regexp/syntax] that the supported patterns parse to.
    [x+] is [OpConcat x (OpStar x)] and [x?] is [OpAlternate x OpEmptyMatch]. *)
Inductive Regexp : Type :=
| OpNoMatch
| OpEmptyMatch
| OpLiteral (c : ascii)
| OpAnyCharNotNL
| OpConcat (r s : Regexp)
| OpAlternate (r s : Regexp)
| OpStar (r : Regexp).

Definition OpPlus (r : Regexp) : Regexp := OpConcat r (OpStar r).
Definition OpQuest (r : Regexp) : Regexp := OpAlternate r OpEmptyMatch.

Definition newline : ascii := "010"%char.
Definition backslash : ascii := "092"%char.

(** The strings a regular expression denotes.  Without the [s] flag, which
    [regexp.MustCompile] does not set, a dot matches any character but a
    newline. *)
Inductive denotes : Regexp -> list ascii -> Prop :=
| d_empty : denotes OpEmptyMatch []
| d_literal c : denotes (OpLiteral c) [c]
| d_any c : c <> newline -> denotes OpAnyCharNotNL [c]
| d_concat r s u v : denotes r u -> denotes s v -> denotes (OpConcat r s) (u ++ v)
| d_alt_l r s u : denotes r u -> denotes (OpAlternate r s) u
| d_alt_r r s u : denotes s u -> denotes (OpAlternate r s) u
| d_star_nil r : denotes (OpStar r) []
| d_star_more r u v : denotes r u -> denotes (OpStar r) v -> denotes (OpStar r) (u ++ v).

(** The matcher: derivatives of the expression by each input character. *)
Fixpoint nullable (r : Regexp) : bool :=
  match r with
  | OpNoMatch | OpLiteral _ | OpAnyCharNotNL => false
  | OpEmptyMatch | OpStar _ => true
  | OpConcat r s => nullable r && nullable s
  | OpAlternate r s => nullable r || nullable s
  end.

Fixpoint derive (c : ascii) (r : Regexp) : Regexp :=
  match r with
  | OpNoMatch | OpEmptyMatch => OpNoMatch
  | OpLiteral d => if Ascii.eqb c d then OpEmptyMatch else OpNoMatch
  | OpAnyCharNotNL => if Ascii.eqb c newline then OpNoMatch else OpEmptyMatch
  | OpConcat r s =>
      if nullable r then OpAlternate (OpConcat (derive c r) s) (derive c s)
      else OpConcat (derive c r) s
  | OpAlternate r s => OpAlternate (derive c r) (derive c s)
  | OpStar r => OpConcat (derive c r) (OpStar r)
  end.

(** Some prefix of the input is in the language. *)
Fixpoint matchPrefix (r : Regexp) (b : list ascii) : bool :=
  nullable r ||
  match b with
  | [] => false
  | c :: b' => matchPrefix (derive c r) b'
  end.

(** [Regexp.Match(b)]: the input contains a match, starting anywhere. *)
Fixpoint matchAnywhere (r : Regexp) (b : list ascii) : bool :=
  matchPrefix r b ||
  match b with
  | [] => false
  | _ :: b' => matchAnywhere r b'
  end.

Definition Match (r : Regexp) (b : string) : bool :=
  matchAnywhere r (String.list_ascii_of_string b).

(** What compiling a pattern gives.  The parser covers literal characters,
    the dot, a backslash before a punctuation character, and one of the
    operators star, plus and question mark after such an atom.  Everything else of the RE2 syntax (groups,
    classes, alternation, anchors, counted and non-greedy repetition,
    character-class escapes, bytes outside ASCII) is [Unsupported]: the
    model does not say what the library does with it. *)
Inductive compiled : Type :=
| Compiled (r : Regexp)
| SyntaxError
| Unsupported.

Definition isASCII (c : ascii) : bool := (nat_of_ascii c <? 128)%nat.

Definition isAlnum (c : ascii) : bool :=
  let n := nat_of_ascii c in
  ((48 <=? n) && (n <=? 57) || (65 <=? n) && (n <=? 90) || (97 <=? n) && (n <=? 122))%nat.

Definition isRepeatOp (c : ascii) : bool :=
  Ascii.eqb c "*" || Ascii.eqb c "+" || Ascii.eqb c "?".

Definition isOtherMeta (c : ascii) : bool :=
  existsb (Ascii.eqb c) (String.list_ascii_of_string "()[]{}|^$").

Definition repeatOf (c : ascii) (r : Regexp) : Regexp :=
  if Ascii.eqb c "*" then OpStar r
  else if Ascii.eqb c "+" then OpPlus r
  else OpQuest r.

(** The expression parsed so far followed by the atom that is still open
    to a repetition operator. *)
Definition close (acc : Regexp) (atom : option Regexp) : Regexp :=
  match atom with
  | Some a => OpConcat acc a
  | None => acc
  end.

(** One scan over the pattern.  [acc]: what is parsed; [atom]: the last
    atom, when it can still take a repetition operator; [escaped]: the
    previous character was an unescaped backslash; [repeated]: the previous
    character was a repetition operator. *)
Fixpoint parseFrom (acc : Regexp) (atom : option Regexp) (escaped repeated : bool)
    (pattern : list ascii) : compiled :=
  match pattern with
  | [] => if escaped then SyntaxError else Compiled (close acc atom)
  | c :: rest =>
      if negb (isASCII c) then Unsupported
      else if escaped then
        if isAlnum c then Unsupported
        else parseFrom (close acc atom) (Some (OpLiteral c)) false false rest
      else if Ascii.eqb c backslash then parseFrom acc atom true false rest
      else if isRepeatOp c then
        match atom with
        | Some a => parseFrom (OpConcat acc (repeatOf c a)) None false true rest
        | None => if repeated then Unsupported else SyntaxError
        end
      else if isOtherMeta c then Unsupported
      else if Ascii.eqb c "." then
        parseFrom (close acc atom) (Some OpAnyCharNotNL) false false rest
      else parseFrom (close acc atom) (Some (OpLiteral c)) false false rest
  end.

Definition Compile (pattern : string) : compiled :=
  parseFrom OpEmptyMatch None false false (String.list_ascii_of_string pattern).

Definition asciiOnly (s : string) : bool :=
  forallb isASCII (String.list_ascii_of_string s).

(** The engine in the form that [checkForSpec] takes it, for the patterns
    that this module parses and names of ASCII characters.  Outside them
    its answers are not the library's: the statements that name this
    engine are about patterns and names inside. *)
Definition MustCompile (pattern : string) : option (string -> bool) :=
  match Compile pattern with
  | Compiled re => Some (Match re)
  | SyntaxError | Unsupported => None
  end.

End Regexp.

(* ================================================================== *)
(** * JSON values *)
(* ================================================================== *)

Module json.

(** A decoded JSON text.  The members of an object are kept in the order
    of the text. *)
#[warnings="-register-all"]
Inductive Value : Type :=
| Null
| Bool (b : bool)
| Number (literal : string)
| Str (s : string)
| Array (elems : list Value)
| Object (members : list (string * Value)).

(** A Go [map[string]interface{}] read from an object: of two members with
    one key, the later one stays. *)
Fixpoint mapIndex (m : list (string * Value)) (key : string) : Value :=
  match m with
  | [] => Null
  | (k, v) :: m' =>
      if existsb (fun kv => String.eqb (fst kv) key) m' then mapIndex m' key
      else if String.eqb k key then v
      else Null
  end.

(** [json.Unmarshal] into a [map[string]interface{}]: an object gives its
    map and [null] the nil map, which reads as the empty one; any other
    value is an error. *)
Definition asMap (v : Value) : option (list (string * Value)) :=
  match v with
  | Object members => Some members
  | Null => Some []
  | _ => None
  end.

(** [json.Unmarshal] into a [[]map[string]interface{}]: an array whose
    elements are objects or [null], or [null] itself for the nil slice. *)
Definition asMaps (v : Value) : option (list (list (string * Value))) :=
  match v with
  | Array elems => mapM asMap elems
  | Null => Some []
  | _ => None
  end.

(** The type assertion [x.(string)]. *)
Definition assertString (v : Value) : option string :=
  match v with
  | Str s => Some s
  | _ => None
  end.

(** The type assertion [x.([]interface{})]. *)
Definition assertSlice (v : Value) : option (list Value) :=
  match v with
  | Array elems => Some elems
  | _ => None
  end.

End json.

(* ================================================================== *)
(** * The manifest resolver *)
(* ================================================================== *)

(** [ImageInfo] contains image information. *)
Record ImageInfo : Type := mkImageInfo {
  Name : string;
  RepoTags : list string;
  Arch : string;
  OS : string;
  FileList : list string;
  DirList : list string
}.

Definition setArch (img : ImageInfo) (arch : string) : ImageInfo :=
  mkImageInfo (Name img) (RepoTags img) arch (OS img) (FileList img) (DirList img).

Definition setOS (img : ImageInfo) (os : string) : ImageInfo :=
  mkImageInfo (Name img) (RepoTags img) (Arch img) os (FileList img) (DirList img).

Definition appendRepoTag (img : ImageInfo) (tag : string) : ImageInfo :=
  mkImageInfo (Name img) (RepoTags img ++ [tag]) (Arch img) (OS img)
              (FileList img) (DirList img).

Definition setInventory (img : ImageInfo) (fl dl : list string) : ImageInfo :=
  mkImageInfo (Name img) (RepoTags img) (Arch img) (OS img) fl dl.

(** How a call on an [*ImageInfo] ends; the record it leaves is returned
    beside it. *)
Inductive ending : Type :=
| Returned
| Exited (msg : string)
    (** [log.Fatal] *)
| Panicked.
    (** a failed type assertion, or [regexp.MustCompile] on a bad pattern *)

(** What [checkForSpec] gives: the matches, or the panic of
    [regexp.MustCompile]. *)
Inductive matching : Type :=
| Matches (names : list string)
| MatchPanic.

(** [checkForSpec(spec, fl)]: the names of [fl] that the pattern matches,
    in the order of [fl].  [MustCompile spec] is [regexp.MustCompile(spec)]:
    the function [re.Match] of the compiled expression, or [None] when the
    pattern does not parse and [MustCompile] panics. *)
Definition checkForSpec (MustCompile : string -> option (string -> bool))
    (spec : string) (fl : list string) : matching :=
  match MustCompile spec with
  | None => MatchPanic
  | Some reMatch =>
      Matches
        (fold_left
           (fun matches name =>
              if reMatch name then matches ++ [name] else matches)
           fl [])
  end.

(** [getFileBytes(fname)]: [os.Open] failed and the process exited,
    [io.ReadAll] returned an error, or the bytes of the file. *)
Definition getFileBytes (proc : process) (fs : FS) (fname : string) : fileBytes :=
  readFile proc fs (Clean fname).

Section Resolver.

Variable proc : process.
Variable tempDir : string.

(** [json.Unmarshal] up to the typed target: the decoded text, or [None]
    when the bytes are not a JSON text. *)
Variable jsonDecode : list ascii -> option json.Value.

(** [regexp.MustCompile], as [checkForSpec] takes it. *)
Variable MustCompile : string -> option (string -> bool).

(** The loop over [manres[0]["RepoTags"].([]interface{})]. *)
Fixpoint appendRepoTags (img : ImageInfo) (tags : list json.Value) : ending * ImageInfo :=
  match tags with
  | [] => (Returned, img)
  | tag :: rest =>
      match json.assertString tag with
      | None => (Panicked, img)
      | Some s => appendRepoTags (appendRepoTag img s) rest
      end
  end.

(** The second half of [readManifest]: the config file of the one
    manifest record. *)
Definition readConfig (fs : FS) (img : ImageInfo)
    (record : list (string * json.Value)) : ending * ImageInfo :=
  match json.assertString (json.mapIndex record "Config") with
  | None => (Panicked, img)
  | Some name =>
      let config := Join tempDir name in
      match getFileBytes proc fs config with
      | OpenFailed => (Exited "open file failed", img)
      | ReadFailed => (Exited "config read failed", img)
      | Bytes barr =>
          match jsonDecode barr ≫= json.asMap with
          | None => (Exited "config json unmarshal failed", img)
          | Some cfgres =>
              match json.assertString (json.mapIndex cfgres "architecture") with
              | None => (Panicked, img)
              | Some arch =>
                  let img1 := setArch img arch in
                  match json.assertString (json.mapIndex cfgres "os") with
                  | None => (Panicked, img1)
                  | Some os =>
                      let img2 := setOS img1 os in
                      match json.assertSlice (json.mapIndex record "RepoTags") with
                      | None => (Panicked, img2)
                      | Some tags => appendRepoTags img2 tags
                      end
                  end
              end
          end
      end
  end.

(** [readManifest(img, manifest)]. *)
Definition readManifest (fs : FS) (img : ImageInfo) (manifest : string)
    : ending * ImageInfo :=
  match getFileBytes proc fs manifest with
  | OpenFailed => (Exited "open file failed", img)
  | ReadFailed => (Exited "manifest read failed", img)
  | Bytes barr =>
      match jsonDecode barr ≫= json.asMaps with
      | None => (Exited "manifest json unmarshal failed", img)
      | Some manres =>
          match manres with
          | [record] => readConfig fs img record
          | _ => (Exited "expecting one config in manifest!", img)
          end
      end
  end.

(** [getImageInfo(img)]. *)
Definition getImageInfo (fs : FS) (img : ImageInfo) : ending * ImageInfo :=
  match checkForSpec MustCompile (Join tempDir "manifest.json") (FileList img) with
  | MatchPanic => (Panicked, img)
  | Matches matches =>
      match matches with
      | [manifest] => readManifest fs img manifest
      | _ => (Exited "expecting one manifest.json!", img)
      end
  end.

End Resolver.

(* ================================================================== *)
(** * Reference decoders

    The statements below hold for every tar and JSON decoder.  To run the
    model on concrete archives, this part gives decoders for the plain
    cases of both formats, with the encoders that build the examples.
    Input outside these cases is not used by any example. *)
(* ================================================================== *)

Module ustar.

(** Plain ustar archives: 512-byte blocks, a header block per entry with
    octal fields and a checksum, the contents padded to whole blocks, and
    two zero blocks (or the end of the file) at the end.  Extended headers
    (PAX, GNU long names, sparse files) and base-256 fields are read as a
    header error. *)

Definition blockSize : nat := 512.
Definition NUL : ascii := "000"%char.
Definition space : ascii := " "%char.

Definition field (off len : nat) (blk : list ascii) : list ascii :=
  take len (drop off blk).

Fixpoint untilNUL (b : list ascii) : list ascii :=
  match b with
  | [] => []
  | c :: b' => if Ascii.eqb c NUL then [] else c :: untilNUL b'
  end.

Definition parseString (b : list ascii) : string :=
  String.string_of_list_ascii (untilNUL b).

Definition isPad (c : ascii) : bool := Ascii.eqb c NUL || Ascii.eqb c space.

Fixpoint dropPad (b : list ascii) : list ascii :=
  match b with
  | c :: b' => if isPad c then dropPad b' else b
  | [] => []
  end.

Definition trim (b : list ascii) : list ascii :=
  rev (dropPad (rev (dropPad b))).

Definition octalDigit (c : ascii) : option N :=
  let n := N_of_ascii c in
  if ((48 <=? n) && (n <=? 55))%N then Some (n - 48)%N else None.

Fixpoint octalFrom (acc : N) (b : list ascii) : option N :=
  match b with
  | [] => Some acc
  | c :: b' =>
      match octalDigit c with
      | Some d => octalFrom (8 * acc + d)%N b'
      | None => None
      end
  end.

(** An octal field: padding removed; the empty field is zero. *)
Definition parseOctal (b : list ascii) : option N :=
  octalFrom 0%N (trim b).

Definition allZero (blk : list ascii) : bool := forallb (Ascii.eqb NUL) blk.

(** The sum of the bytes of the header, its checksum field read as
    spaces. *)
Definition checksum (blk : list ascii) : N :=
  let bytes := take 148 blk ++ replicate 8 space ++ drop 156 blk in
  fold_left (fun acc c => (acc + N_of_ascii c)%N) bytes 0%N.

Definition magic : list ascii := String.list_ascii_of_string "ustar" ++ [NUL].

(** Links, devices, directories and fifos carry no contents. *)
Definition isHeaderOnlyType (flag : ascii) : bool :=
  existsb (Ascii.eqb flag) (String.list_ascii_of_string "123456").

Definition isExtendedType (flag : ascii) : bool :=
  existsb (Ascii.eqb flag) (String.list_ascii_of_string "xgLKS").

(** A header block: the entry's header and the size of its contents. *)
Definition parseHeader (blk : list ascii) : option (tar.Header * nat) :=
  match parseOctal (field 148 8 blk), parseOctal (field 100 8 blk),
        parseOctal (field 124 12 blk), field 156 1 blk with
  | Some sum, Some mode, Some size, [flag] =>
      if negb (sum =? checksum blk)%N then None
      else if isExtendedType flag then None
      else
        let name := parseString (field 0 100 blk) in
        let prefix := parseString (field 345 155 blk) in
        let name :=
          if decide (field 257 6 blk = magic) then
            if String.eqb prefix EmptyString then name
            else prefix +:+ String Separator name
          else name in
        let flag :=
          if Ascii.eqb flag NUL then
            if HasSuffix name "/" then tar.TypeDir else tar.TypeReg
          else flag in
        Some (tar.mkHeader name flag (Z.of_N mode),
              if isHeaderOnlyType flag then O else N.to_nat size)
  | _, _, _, _ => None
  end.

Definition padding (size : nat) : nat :=
  (blockSize - size mod blockSize) mod blockSize.

(** The entries of an archive.  Each step reads at least one block, so the
    length of the input is fuel enough. *)
Fixpoint decodeBlocks (fuel : nat) (b : list ascii) : tar.Reader :=
  match fuel with
  | O => tar.Err
  | S fuel' =>
      match b with
      | [] => tar.EOF
      | _ =>
          if (length b <? blockSize)%nat then tar.Err
          else
            let blk := take blockSize b in
            let b1 := drop blockSize b in
            if allZero blk then
              match b1 with
              | [] => tar.EOF
              | _ =>
                  if (length b1 <? blockSize)%nat then tar.Err
                  else if allZero (take blockSize b1) then tar.EOF
                  else tar.Err
              end
            else
              match parseHeader blk with
              | None => tar.Err
              | Some (hdr, size) =>
                  if (length b1 <? size)%nat then tar.Entry hdr b1 false tar.Err
                  else
                    let rest := drop size b1 in
                    if (length rest <? padding size)%nat then
                      tar.Entry hdr (take size b1) true tar.EOF
                    else
                      tar.Entry hdr (take size b1) true
                                (decodeBlocks fuel' (drop (padding size) rest))
              end
      end
  end.

Definition decode (b : list ascii) : tar.Reader :=
  decodeBlocks (S (length b)) b.

(** ** The encoder *)

Fixpoint octalDigits (width : nat) (n : N) : list ascii :=
  match width with
  | O => []
  | S w => octalDigits w (n / 8)%N ++ [ascii_of_N (48 + n mod 8)%N]
  end.

Definition padTo (len : nat) (b : list ascii) : list ascii :=
  take len (b ++ replicate len NUL).

Definition headerFields (hdr : tar.Header) (size : nat) (sum : list ascii) : list ascii :=
  padTo 100 (String.list_ascii_of_string (tar.Name hdr))
  ++ octalDigits 7 (Z.to_N (tar.Mode hdr)) ++ [NUL]
  ++ octalDigits 7 0 ++ [NUL]
  ++ octalDigits 7 0 ++ [NUL]
  ++ octalDigits 11 (N.of_nat size) ++ [NUL]
  ++ octalDigits 11 0 ++ [NUL]
  ++ sum
  ++ [tar.Typeflag hdr]
  ++ replicate 100 NUL
  ++ magic ++ String.list_ascii_of_string "00"
  ++ replicate 64 NUL
  ++ octalDigits 7 0 ++ [NUL]
  ++ octalDigits 7 0 ++ [NUL]
  ++ replicate 155 NUL
  ++ replicate 12 NUL.

Definition headerBlock (hdr : tar.Header) (size : nat) : list ascii :=
  let sum := checksum (headerFields hdr size (replicate 8 space)) in
  headerFields hdr size (octalDigits 6 sum ++ [NUL; space]).

(** One entry: its header, its contents, and the padding to a whole
    block. *)
Definition entry (hdr : tar.Header) (body : list ascii) : list ascii :=
  headerBlock hdr (length body) ++ body ++ replicate (padding (length body)) NUL.

(** The two zero blocks that end an archive. *)
Definition trailer : list ascii := replicate (2 * blockSize) NUL.

End ustar.

Module jsontext.

(** JSON texts as [encoding/json] reads them: objects, arrays, strings
    with their escapes, numbers and the three literals, with blanks
    between tokens. *)

Definition quote : ascii := "034"%char.
Definition backslash : ascii := "092"%char.

Definition isBlank (c : ascii) : bool :=
  existsb (Ascii.eqb c) [" "%char; "009"%char; "010"%char; "013"%char].

Definition isDigit (c : ascii) : bool :=
  let n := nat_of_ascii c in ((48 <=? n) && (n <=? 57))%nat.

Fixpoint skipBlanks (s : list ascii) : list ascii :=
  match s with
  | c :: s' => if isBlank c then skipBlanks s' else s
  | [] => []
  end.

(** The character that stands behind a backslash, [u] apart. *)
Definition simpleEscape (e : ascii) : option ascii :=
  if Ascii.eqb e quote then Some quote
  else if Ascii.eqb e backslash then Some backslash
  else if Ascii.eqb e "/" then Some "/"%char
  else if Ascii.eqb e "b" then Some "008"%char
  else if Ascii.eqb e "f" then Some "012"%char
  else if Ascii.eqb e "n" then Some "010"%char
  else if Ascii.eqb e "r" then Some "013"%char
  else if Ascii.eqb e "t" then Some "009"%char
  else None.

Definition hexDigit (c : ascii) : option N :=
  let n := N_of_ascii c in
  if ((48 <=? n) && (n <=? 57))%N then Some (n - 48)%N
  else if ((97 <=? n) && (n <=? 102))%N then Some (n - 87)%N
  else if ((65 <=? n) && (n <=? 70))%N then Some (n - 55)%N
  else None.

Definition hex4 (a b c d : ascii) : option N :=
  match hexDigit a, hexDigit b, hexDigit c, hexDigit d with
  | Some x, Some y, Some z, Some w => Some (((x * 16 + y) * 16 + z) * 16 + w)%N
  | _, _, _, _ => None
  end.

(** [utf8.EncodeRune]. *)
Definition utf8 (n : N) : list ascii :=
  if (n <? 128)%N then [ascii_of_N n]
  else if (n <? 2048)%N then
    [ascii_of_N (192 + n / 64); ascii_of_N (128 + n mod 64)]
  else if (n <? 65536)%N then
    [ascii_of_N (224 + n / 4096); ascii_of_N (128 + (n / 64) mod 64);
     ascii_of_N (128 + n mod 64)]
  else
    [ascii_of_N (240 + n / 262144); ascii_of_N (128 + (n / 4096) mod 64);
     ascii_of_N (128 + (n / 64) mod 64); ascii_of_N (128 + n mod 64)].

(** [unicode.ReplacementChar], encoded. *)
Definition replacement : list ascii := utf8 65533.

Definition isSurrogate (n : N) : bool := ((55296 <=? n) && (n <? 57344))%N.
Definition isHighSurrogate (n : N) : bool := ((55296 <=? n) && (n <? 56320))%N.
Definition isLowSurrogate (n : N) : bool := ((56320 <=? n) && (n <? 57344))%N.

(** [utf16.DecodeRune] on a pair of surrogates. *)
Definition surrogatePair (hi lo : N) : N :=
  (65536 + (hi - 55296) * 1024 + (lo - 56320))%N.

Definition between (lo hi : N) (c : ascii) : bool :=
  ((lo <=? N_of_ascii c) && (N_of_ascii c <=? hi))%N.

Definition isContinuation (c : ascii) : bool := between 128 191 c.

(** The length of the UTF-8 sequence that starts with the byte [c],
    outside ASCII, and goes on with [s]; zero when there is no such
    sequence, as [utf8.DecodeRune] finds it. *)
Definition utf8Length (c : ascii) (s : list ascii) : nat :=
  match s with
  | b1 :: t1 =>
      if between 194 223 c then (if isContinuation b1 then 2 else 0)%nat
      else
        match t1 with
        | b2 :: t2 =>
            if between 224 224 c then
              (if between 160 191 b1 && isContinuation b2 then 3 else 0)%nat
            else if between 225 236 c || between 238 239 c then
              (if isContinuation b1 && isContinuation b2 then 3 else 0)%nat
            else if between 237 237 c then
              (if between 128 159 b1 && isContinuation b2 then 3 else 0)%nat
            else
              match t2 with
              | b3 :: _ =>
                  if between 240 240 c then
                    (if between 144 191 b1 && isContinuation b2 && isContinuation b3
                     then 4 else 0)%nat
                  else if between 241 243 c then
                    (if isContinuation b1 && isContinuation b2 && isContinuation b3
                     then 4 else 0)%nat
                  else if between 244 244 c then
                    (if between 128 143 b1 && isContinuation b2 && isContinuation b3
                     then 4 else 0)%nat
                  else O
              | [] => O
              end
        | [] => O
        end
  | [] => O
  end.

Definition prepend (pre : list ascii) (r : option (list ascii * list ascii))
    : option (list ascii * list ascii) :=
  match r with
  | Some (cs, rest) => Some (pre ++ cs, rest)
  | None => None
  end.

(** The characters of a string up to its closing quote, and what follows
    the quote.  [skip] counts the bytes that are still to be taken over
    from a UTF-8 sequence.  An escape is replaced by what it stands for; a
    byte that starts no UTF-8 sequence, and a surrogate that is not half
    of a pair, by the replacement character; a control character is an
    error. *)
Fixpoint parseChars (skip : nat) (s : list ascii) : option (list ascii * list ascii) :=
  match s with
  | [] => None
  | c :: s' =>
      match skip with
      | S k => prepend [c] (parseChars k s')
      | O =>
          if Ascii.eqb c quote then Some ([], s')
          else if Ascii.eqb c backslash then
            match s' with
            | e :: s1 =>
                match simpleEscape e with
                | Some x => prepend [x] (parseChars O s1)
                | None =>
                    if Ascii.eqb e "u" then
                      match s1 with
                      | h1 :: h2 :: h3 :: h4 :: s2 =>
                          match hex4 h1 h2 h3 h4 with
                          | None => None
                          | Some n =>
                              if isSurrogate n then
                                match s2 with
                                | b :: u :: l1 :: l2 :: l3 :: l4 :: s3 =>
                                    match (if Ascii.eqb b backslash && Ascii.eqb u "u"
                                           then hex4 l1 l2 l3 l4 else None) with
                                    | Some m =>
                                        if isHighSurrogate n && isLowSurrogate m then
                                          prepend (utf8 (surrogatePair n m))
                                                  (parseChars O s3)
                                        else prepend replacement (parseChars O s2)
                                    | None => prepend replacement (parseChars O s2)
                                    end
                                | _ => prepend replacement (parseChars O s2)
                                end
                              else prepend (utf8 n) (parseChars O s2)
                          end
                      | _ => None
                      end
                    else None
                end
            | [] => None
            end
          else if (nat_of_ascii c <? 32)%nat then None
          else if (nat_of_ascii c <? 128)%nat then prepend [c] (parseChars O s')
          else
            match utf8Length c s' with
            | O => prepend replacement (parseChars O s')
            | S k => prepend [c] (parseChars k s')
            end
      end
  end.

Fixpoint spanDigits (s : list ascii) : list ascii * list ascii :=
  match s with
  | c :: s' =>
      if isDigit c then let '(ds, rest) := spanDigits s' in (c :: ds, rest)
      else ([], s)
  | [] => ([], [])
  end.

(** The fraction of a number, when there is one: a point and digits. *)
Definition parseFraction (s : list ascii) : option (list ascii * list ascii) :=
  match s with
  | c :: s' =>
      if Ascii.eqb c "." then
        match spanDigits s' with
        | ([], _) => None
        | (ds, rest) => Some (c :: ds, rest)
        end
      else Some ([], s)
  | [] => Some ([], s)
  end.

(** The exponent of a number, when there is one: [e] or [E], a sign or
    none, and digits. *)
Definition parseExponent (s : list ascii) : option (list ascii * list ascii) :=
  match s with
  | c :: s' =>
      if Ascii.eqb c "e" || Ascii.eqb c "E" then
        let '(sign, s1) :=
          match s' with
          | g :: s'' => if Ascii.eqb g "+" || Ascii.eqb g "-" then ([g], s'') else ([], s')
          | [] => ([], s')
          end in
        match spanDigits s1 with
        | ([], _) => None
        | (ds, rest) => Some (c :: sign ++ ds, rest)
        end
      else Some ([], s)
  | [] => Some ([], s)
  end.

(** A number: a minus sign or none, then one zero or digits that do not
    start with zero, then a fraction and an exponent or none. *)
Definition parseNumber (s : list ascii) : option (list ascii * list ascii) :=
  let '(sign, s1) :=
    match s with
    | c :: s' => if Ascii.eqb c "-" then ([c], s') else ([], s)
    | [] => ([], s)
    end in
  match spanDigits s1 with
  | ([], _) => None
  | (d :: ds, rest) =>
      if Ascii.eqb d "0" && negb (bool_decide (ds = [])) then None
      else
        match parseFraction rest with
        | None => None
        | Some (frac, rest1) =>
            match parseExponent rest1 with
            | None => None
            | Some (exp, rest2) => Some (sign ++ d :: ds ++ frac ++ exp, rest2)
            end
        end
  end.

Definition literal (word : string) (v : json.Value) (s : list ascii)
    : option (json.Value * list ascii) :=
  let w := String.list_ascii_of_string word in
  if bool_decide (take (length w) s = w) then Some (v, drop (length w) s) else None.

Fixpoint parseValue (fuel : nat) (s : list ascii) : option (json.Value * list ascii) :=
  match fuel with
  | O => None
  | S fuel' =>
      match skipBlanks s with
      | [] => None
      | c :: s' =>
          if Ascii.eqb c quote then
            match parseChars O s' with
            | Some (cs, rest) => Some (json.Str (String.string_of_list_ascii cs), rest)
            | None => None
            end
          else if Ascii.eqb c "[" then
            match skipBlanks s' with
            | d :: s'' =>
                if Ascii.eqb d "]" then Some (json.Array [], s'')
                else parseElems fuel' [] s'
            | [] => None
            end
          else if Ascii.eqb c "{" then
            match skipBlanks s' with
            | d :: s'' =>
                if Ascii.eqb d "}" then Some (json.Object [], s'')
                else parseMembers fuel' [] s'
            | [] => None
            end
          else if Ascii.eqb c "n" then literal "null" json.Null (c :: s')
          else if Ascii.eqb c "t" then literal "true" (json.Bool true) (c :: s')
          else if Ascii.eqb c "f" then literal "false" (json.Bool false) (c :: s')
          else
            match parseNumber (c :: s') with
            | Some (ds, rest) => Some (json.Number (String.string_of_list_ascii ds), rest)
            | None => None
            end
      end
  end
with parseElems (fuel : nat) (acc : list json.Value) (s : list ascii)
    : option (json.Value * list ascii) :=
  match fuel with
  | O => None
  | S fuel' =>
      match parseValue fuel' s with
      | Some (v, rest) =>
          match skipBlanks rest with
          | c :: rest' =>
              if Ascii.eqb c "," then parseElems fuel' (acc ++ [v]) rest'
              else if Ascii.eqb c "]" then Some (json.Array (acc ++ [v]), rest')
              else None
          | [] => None
          end
      | None => None
      end
  end
with parseMembers (fuel : nat) (acc : list (string * json.Value)) (s : list ascii)
    : option (json.Value * list ascii) :=
  match fuel with
  | O => None
  | S fuel' =>
      match skipBlanks s with
      | q :: s1 =>
          if Ascii.eqb q quote then
            match parseChars O s1 with
            | Some (key, s2) =>
                match skipBlanks s2 with
                | c :: s3 =>
                    if Ascii.eqb c ":" then
                      match parseValue fuel' s3 with
                      | Some (v, rest) =>
                          let acc' := acc ++ [(String.string_of_list_ascii key, v)] in
                          match skipBlanks rest with
                          | d :: rest' =>
                              if Ascii.eqb d "," then parseMembers fuel' acc' rest'
                              else if Ascii.eqb d "}" then Some (json.Object acc', rest')
                              else None
                          | [] => None
                          end
                      | None => None
                      end
                    else None
                | [] => None
                end
            | None => None
            end
          else None
      | [] => None
      end
  end.

(** One value, and nothing but blanks after it. *)
Definition decode (b : list ascii) : option json.Value :=
  match parseValue (S (length b)) b with
  | Some (v, rest) =>
      match skipBlanks rest with
      | [] => Some v
      | _ => None
      end
  | None => None
  end.

(** ** The encoder *)

Definition quoted (s : string) : list ascii :=
  quote :: String.list_ascii_of_string s ++ [quote].

Fixpoint encode (v : json.Value) : list ascii :=
  match v with
  | json.Null => String.list_ascii_of_string "null"
  | json.Bool true => String.list_ascii_of_string "true"
  | json.Bool false => String.list_ascii_of_string "false"
  | json.Number literal => String.list_ascii_of_string literal
  | json.Str s => quoted s
  | json.Array elems =>
      "["%char ::
      (fix encodeElems (vs : list json.Value) : list ascii :=
         match vs with
         | [] => []
         | [v] => encode v
         | v :: vs' => encode v ++ ","%char :: encodeElems vs'
         end) elems ++ ["]"%char]
  | json.Object members =>
      "{"%char ::
      (fix encodeMembers (ms : list (string * json.Value)) : list ascii :=
         match ms with
         | [] => []
         | [(k, v)] => quoted k ++ ":"%char :: encode v
         | (k, v) :: ms' => quoted k ++ ":"%char :: encode v ++ ","%char :: encodeMembers ms'
         end) members ++ ["}"%char]
  end.

End jsontext.

(* ================================================================== *)
(** * The image inspector *)
(* ================================================================== *)

Section Inspector.

Variable proc : process.
Variable tempDir : string.
Variable tarDecode : list ascii -> tar.Reader.
Variable jsonDecode : list ascii -> option json.Value.
Variable MustCompile : string -> option (string -> bool).

(** Steps 2 and 3 of [getImageDetails], from the archive that step 1
    saved at [tarname]: the inventory is extracted into a new
    [ImageInfo], which [getImageInfo] then completes. *)
Definition getImageDetails (fuel : nat) (fs : FS) (imageName tarname : string)
    : outcome (ending * ImageInfo) :=
  match extractTar proc tempDir tarDecode fuel fs tarname with
  | Ok (fs', fl, dl) =>
      let img := mkImageInfo imageName [] EmptyString EmptyString fl dl in
      Ok (getImageInfo proc tempDir jsonDecode MustCompile fs' img)
  | Fatal msg fs' => Fatal msg fs'
  | OutOfFuel => OutOfFuel
  | Unmodelled => Unmodelled
  end.

End Inspector.

(* ================================================================== *)
(** * Notions of the specification *)
(* ================================================================== *)

(** A name with a traversal sequence: one of its elements is [..]. *)
Definition hasTraversal (t : string) : bool :=
  existsb (String.eqb dotdot) (splitPath t).

(** [p] holds a regular file in [fs'] that [fs] does not hold as it is:
    the file was created or written. *)
Definition fileWritten (fs fs' : FS) (p : string) : Prop :=
  exists mode data, fs' !! p = Some (File mode data) /\ fs !! p <> Some (File mode data).

(** Every regular file that [fs'] holds and [fs] does not hold as it is
    has the cleaned root as a prefix of its path. *)
Definition filesWithin (root : string) (fs fs' : FS) : Prop :=
  forall p, fileWritten fs fs' p -> HasPrefix p (Clean root) = true.

(** Every node of [fs] is in [fs'] as a node of the same kind, and a
    regular file has the mode it had. *)
Definition nodesKept (fs fs' : FS) : Prop :=
  forall p n, fs !! p = Some n ->
    match n with
    | Dir => fs' !! p = Some Dir
    | File mode _ => exists data, fs' !! p = Some (File mode data)
    end.

(** [p] holds a regular file. *)
Definition isFile (fs : FS) (p : string) : Prop :=
  exists mode data, lookupPath fs p = Some (File mode data).

(** A path as the sanitizer returns it under [root]. *)
Definition sanitized (root p : string) : Prop :=
  Clean p = p /\ HasPrefix p (Clean root) = true.

(** The inventory holds sanitized paths; those of the file list hold
    regular files, and those of the directory list exist. *)
Definition listedIn (root : string) (fs : FS) (fl dl : list string) : Prop :=
  Forall (fun p => isFile fs p /\ sanitized root p) fl
  /\ Forall (fun p => Stat fs p = true /\ sanitized root p) dl.

(** A path that does not carry the suffix of a nested layer archive. *)
Definition plainFile (p : string) : Prop := HasSuffix p "layer.tar" = false.

(** The extraction root emptied: nothing is left below [root] but the
    archive itself. *)
Definition emptyRoot (root tarname : string) (fs : FS) : FS :=
  filter (fun kv => String.eqb (fst kv) tarname = true
                    \/ HasPrefix (fst kv) (root +:+ "/") = false) fs.

(** The config record that the [Config] field of the one record of the
    manifest leads to: both files are read and parsed. *)
Definition configOf (proc : process) (tempDir : string)
    (jsonDecode : list ascii -> option json.Value)
    (fs : FS) (manifest : string) (cfgres : list (string * json.Value)) : Prop :=
  exists barr record name cbarr,
    getFileBytes proc fs manifest = Bytes barr
    /\ jsonDecode barr ≫= json.asMaps = Some [record]
    /\ json.assertString (json.mapIndex record "Config") = Some name
    /\ getFileBytes proc fs (Join tempDir name) = Bytes cbarr
    /\ jsonDecode cbarr ≫= json.asMap = Some cfgres.

(** The archive without the entries that are neither directories nor
    regular files: links, devices, fifos. *)
Fixpoint dirsAndFiles (tr : tar.Reader) : tar.Reader :=
  match tr with
  | tar.Entry hdr body clean rest =>
      if Ascii.eqb (tar.Typeflag hdr) tar.TypeDir
         || Ascii.eqb (tar.Typeflag hdr) tar.TypeReg
      then tar.Entry hdr body clean (dirsAndFiles rest)
      else dirsAndFiles rest
  | ended => ended
  end.

Section Specification.

Variable proc : process.
Variable tempDir : string.


(** The file system once the contents of an entry are on disk at [tgt]. *)
Definition afterWrite (fs : FS) (hdr : tar.Header) (body : list ascii) (tgt : string) : FS :=
  match OpenFile proc fs (Clean tgt) (tar.Mode hdr) with
  | Some fs1 => writeFile fs1 (Clean tgt) body
  | None => fs
  end.

(** The file system once a directory entry is handled. *)
Definition afterMkdir (fs : FS) (tgt : string) : FS :=
  if Stat fs tgt then fs
  else match MkdirAll fs tgt with
       | Some fs1 => fs1
       | None => fs
       end.

(** The file list in the words of the specification: the concatenation,
    in the order of the entries, of the path of each top-level regular
    file and, for each nested layer, of the files that its extraction
    returned.  [nested fs tgt] is that extraction, run on the file system
    in which the layer has just been written. *)
Fixpoint specFileList (nested : FS -> string -> outcome inventory)
    (tr : tar.Reader) (fs : FS) : list string :=
  match tr with
  | tar.Entry hdr body clean rest =>
      match sanitizeArchivePath tempDir (tar.Name hdr) with
      | inr _ => specFileList nested rest fs
      | inl tgt =>
          if Ascii.eqb (tar.Typeflag hdr) tar.TypeDir then
            specFileList nested rest (afterMkdir fs tgt)
          else if Ascii.eqb (tar.Typeflag hdr) tar.TypeReg then
            let fs2 := afterWrite fs hdr body tgt in
            if HasSuffix tgt "layer.tar" then
              match nested fs2 tgt with
              | Ok (fs3, ifl, _) => ifl ++ specFileList nested rest fs3
              | _ => []
              end
            else tgt :: specFileList nested rest fs2
          else specFileList nested rest fs
      end
  | _ => []
  end.

(** The paths of the regular files of an archive that the sanitizer
    accepts, in the order of the entries. *)
Fixpoint regularTargets (tr : tar.Reader) : list string :=
  match tr with
  | tar.Entry hdr _ _ rest =>
      match sanitizeArchivePath tempDir (tar.Name hdr) with
      | inl tgt =>
          if Ascii.eqb (tar.Typeflag hdr) tar.TypeReg
          then tgt :: regularTargets rest
          else regularTargets rest
      | inr _ => regularTargets rest
      end
  | _ => []
  end.

(** The paths of the directory entries of an archive that the sanitizer
    accepts, in the order of the entries. *)
Fixpoint dirTargets (tr : tar.Reader) : list string :=
  match tr with
  | tar.Entry hdr _ _ rest =>
      match sanitizeArchivePath tempDir (tar.Name hdr) with
      | inl tgt =>
          if Ascii.eqb (tar.Typeflag hdr) tar.TypeDir
          then tgt :: dirTargets rest
          else dirTargets rest
      | inr _ => dirTargets rest
      end
  | _ => []
  end.

End Specification.

(** What a call leaves of the image record: the name and the fields of
    the inventory as they were, and the tags it had at the front of the
    tags it has. *)
Definition inventoryKept (img img' : ImageInfo) : Prop :=
  Name img' = Name img /\ FileList img' = FileList img /\ DirList img' = DirList img
  /\ exists added, RepoTags img' = RepoTags img ++ added.

(** A pattern character against an input character: a dot stands for any
    character but a newline, any other character for itself. *)
Definition charMatches (p c : ascii) : Prop :=
  if Ascii.eqb p "." then c <> Regexp.newline else c = p.

(** A character that the pattern parser reads as itself, or the dot. *)
Definition plainOrDot (c : ascii) : bool :=
  Regexp.isASCII c
  && negb (Ascii.eqb c Regexp.backslash)
  && negb (Regexp.isRepeatOp c)
  && negb (Regexp.isOtherMeta c).

(* ================================================================== *)
(** * Example images *)
(* ================================================================== *)

Module Example.

Definition root : string := "/tmp/karmor".
Definition tarname : string := "/tmp/karmor/image.tar".

(** A process that is not privileged, with the mask [022]. *)
Definition owner : process := mkProcess 18 false.

Definition regular (name : string) : tar.Header := tar.mkHeader name tar.TypeReg 420.
Definition directory (name : string) : tar.Header := tar.mkHeader name tar.TypeDir 493.

Definition manifest : list ascii :=
  jsontext.encode
    (json.Array
       [json.Object [("Config", json.Str "config.json");
                     ("RepoTags", json.Array [json.Str "busybox:latest"])]]).

Definition config : list ascii :=
  jsontext.encode
    (json.Object [("architecture", json.Str "amd64"); ("os", json.Str "linux")]).

Definition hostname : list ascii := String.list_ascii_of_string "box".

(** One layer: the directory [etc] and the file [etc/hostname]. *)
Definition layer : list ascii :=
  ustar.entry (directory "etc/") []
  ++ ustar.entry (regular "etc/hostname") hostname
  ++ ustar.trailer.

(** The image as [docker save] lays it out: the manifest, the config and
    the layer archive in a directory of its own. *)
Definition image : list ascii :=
  ustar.entry (regular "manifest.json") manifest
  ++ ustar.entry (regular "config.json") config
  ++ ustar.entry (directory "layer0/") []
  ++ ustar.entry (regular "layer0/layer.tar") layer
  ++ ustar.trailer.

(** The same files in one archive without a nested layer. *)
Definition flatImage : list ascii :=
  ustar.entry (regular "manifest.json") manifest
  ++ ustar.entry (regular "config.json") config
  ++ ustar.entry (directory "etc/") []
  ++ ustar.entry (regular "etc/hostname") hostname
  ++ ustar.trailer.

(** A file system whose extraction root holds the archive and nothing
    else. *)
Definition freshRoot (archive : list ascii) : FS :=
  <[tarname := File 384 archive]> (<[root := Dir]> (<["/tmp" := Dir]> ∅)).

(** The pattern of the manifest search under [root], compiled. *)
Definition manifestPattern : Regexp.Regexp :=
  match Regexp.Compile (Join root "manifest.json") with
  | Regexp.Compiled re => re
  | _ => Regexp.OpNoMatch
  end.

(** The files of [flatImage] without the entry of the directory [etc]. *)
Definition noDirectories : list ascii :=
  ustar.entry (regular "manifest.json") manifest
  ++ ustar.entry (regular "config.json") config
  ++ ustar.entry (regular "etc/hostname") hostname
  ++ ustar.trailer.

(** Two layers, the first a prefix of the second: the file [a], and the
    files [a] and [b]. *)
Definition layerA : list ascii :=
  ustar.entry (regular "a") (String.list_ascii_of_string "1").

Definition layerAB : list ascii :=
  layerA ++ ustar.entry (regular "b") (String.list_ascii_of_string "2") ++ ustar.trailer.

(** An archive that writes both layers, one after the other, to one path
    in a directory beside the root whose name starts with the name of the
    root. *)
Definition leaking : list ascii :=
  ustar.entry (directory "../karmor-cache/") []
  ++ ustar.entry (regular "../karmor-cache/layer.tar") layerA
  ++ ustar.entry (regular "../karmor-cache/layer.tar") layerAB
  ++ ustar.trailer.

(** An archive that leaves the root: the directory beside the root whose
    name starts with the name of the root, and a file in it. *)
Definition escaping : list ascii :=
  ustar.entry (directory "../karmor-cache/") []
  ++ ustar.entry (regular "../karmor-cache/passwd") hostname
  ++ ustar.trailer.

(** The file system that the extraction of [escaping] leaves. *)
Definition extractedEscaping : FS :=
  match extractTar owner root ustar.decode 1 (freshRoot escaping) tarname with
  | Ok r => inventoryFS r
  | _ => ∅
  end.

(** The file system that the extraction of [noDirectories] leaves. *)
Definition extractedNoDirectories : FS :=
  match extractTar owner root ustar.decode 1 (freshRoot noDirectories) tarname with
  | Fatal _ fs => fs
  | _ => ∅
  end.

(** An archive that ends within the contents of its one entry. *)
Definition cutOff : list ascii :=
  take 514 (ustar.entry (regular "hostname") hostname).

(** An image record whose file list holds the manifest path twice over:
    once as it is, and once within a longer path. *)
Definition twoManifests : ImageInfo :=
  mkImageInfo "busybox" [] EmptyString EmptyString
    ["/tmp/karmor/manifest.json"; "/tmp/karmor/old/tmp/karmor/manifest.json"] [].

(** A header with the mode [0666]. *)
Definition shared (name : string) : tar.Header := tar.mkHeader name tar.TypeReg 438.

(** A nested call that finds an empty layer. *)
Definition noLayers (fs : FS) (tgt : string) : outcome inventory := Ok (fs, [], []).

(** An image record as [getImageDetails] starts with. *)
Definition blank : ImageInfo :=
  mkImageInfo "busybox" [] EmptyString EmptyString [] [].

(** A manifest of two records. *)
Definition twoRecords : list ascii :=
  jsontext.encode (json.Array [json.Object []; json.Object []]).

(** The manifest path of a root [/t] with a newline in the place of its
    dot. *)
Definition newlineName : string :=
  "/t/manifest" +:+ String Regexp.newline "json".

(** The file system that the extraction of [flatImage] leaves. *)
Definition extractedFlat : FS :=
  match extractTar owner root ustar.decode 1 (freshRoot flatImage) tarname with
  | Ok r => inventoryFS r
  | _ => ∅
  end.

(** The inventory of [flatImage], and the image record before and after
    its manifest is resolved. *)
Definition flatFiles : list string :=
  ["/tmp/karmor/manifest.json"; "/tmp/karmor/config.json"; "/tmp/karmor/etc/hostname"].

Definition listedFlat : ImageInfo :=
  mkImageInfo "busybox" [] EmptyString EmptyString flatFiles ["/tmp/karmor/etc"].

Definition resolvedFlat : ImageInfo :=
  mkImageInfo "busybox" ["busybox:latest"] "amd64" "linux" flatFiles ["/tmp/karmor/etc"].

(** A manifest whose config lies beside the root. *)
Definition strayRecord : list (string * json.Value) :=
  [("Config", json.Str "../elsewhere/config.json");
   ("RepoTags", json.Array [json.Str "busybox:latest"])].

Definition configRecord : list (string * json.Value) :=
  [("architecture", json.Str "amd64"); ("os", json.Str "linux")].

Definition strayRoot : FS :=
  <["/tmp/karmor/manifest.json" :=
      File 420 (jsontext.encode (json.Array [json.Object strayRecord]))]>
    (<["/tmp/elsewhere/config.json" := File 420 config]> ∅).

(** The root with a file [hostname] of ten bytes in it. *)
Definition staleRoot : FS :=
  <["/tmp/karmor/hostname" := File 384 (String.list_ascii_of_string "oldcontent")]>
    (freshRoot []).

(** The file system that the extraction of [image] leaves. *)
Definition extractedImage : FS :=
  match extractTar owner root ustar.decode 2 (freshRoot image) tarname with
  | Ok r => inventoryFS r
  | _ => ∅
  end.

(** The file system that the extraction of [leaking] leaves. *)
Definition extractedLeaking : FS :=
  match extractTar owner root ustar.decode 2 (freshRoot leaking) tarname with
  | Ok r => inventoryFS r
  | _ => ∅
  end.

End Example.

(* ================================================================== *)
(** * Properties of the path functions *)
(* ================================================================== *)

Lemma HasPrefix_refl s : HasPrefix s s = true.
Proof. induction s as [|c s IH]; simpl; [reflexivity|]. now rewrite Ascii.eqb_refl. Qed.

Lemma HasPrefix_app s t : HasPrefix (s +:+ t) s = true.
Proof. induction s as [|c s IH]; simpl; [reflexivity|]. now rewrite Ascii.eqb_refl. Qed.

Lemma HasPrefix_trans s t u :
  HasPrefix s t = true -> HasPrefix t u = true -> HasPrefix s u = true.
Proof.
  revert s t. induction u as [|c u IH]; intros s t Hst Htu; [reflexivity|].
  destruct t as [|b t]; [discriminate|]. destruct s as [|a s]; [discriminate|].
  simpl in *. apply andb_true_iff in Hst as [Hba Hst]. apply andb_true_iff in Htu as [Hcb Htu].
  apply Ascii.eqb_eq in Hba, Hcb. subst. rewrite Ascii.eqb_refl. simpl. eauto.
Qed.

Lemma splitPath_not_nil s : splitPath s <> [].
Proof.
  destruct s as [|c s]; simpl; [discriminate|].
  destruct (Ascii.eqb c Separator); [discriminate|].
  destruct (splitPath s); discriminate.
Qed.

Lemma splitPath_noSlash e : noSlash e = true -> splitPath e = [e].
Proof.
  induction e as [|c e IH]; simpl; [reflexivity|].
  intros H. apply andb_true_iff in H as [Hc He].
  apply negb_true_iff in Hc. rewrite Hc, IH by assumption. reflexivity.
Qed.

Lemma splitPath_app e s :
  noSlash e = true -> splitPath (e +:+ String Separator s) = e :: splitPath s.
Proof.
  induction e as [|c e IH]; simpl.
  - intros _. reflexivity.
  - intros H. apply andb_true_iff in H as [Hc He].
    apply negb_true_iff in Hc. rewrite Hc, IH by assumption. reflexivity.
Qed.

Lemma splitPath_elems s : Forall (fun e => noSlash e = true) (splitPath s).
Proof.
  induction s as [|c s IH]; simpl; [repeat constructor|].
  destruct (Ascii.eqb c Separator) eqn:Hc; [constructor; [reflexivity|assumption]|].
  destruct (splitPath s) as [|e es]; [repeat constructor; simpl; now rewrite Hc|].
  inversion IH; subst. constructor; [simpl; now rewrite Hc|assumption].
Qed.

Lemma splitPath_joinPath es :
  es <> [] -> Forall (fun e => noSlash e = true) es -> splitPath (joinPath es) = es.
Proof.
  induction es as [|e es IH]; [congruence|]. intros _ H. inversion H; subst.
  destruct es as [|e' es].
  - simpl. now apply splitPath_noSlash.
  - change (joinPath (e :: e' :: es)) with (e +:+ String Separator (joinPath (e' :: es))).
    rewrite splitPath_app by assumption. f_equal. apply IH; [discriminate|assumption].
Qed.

Lemma keptElem_dotdot : keptElem dotdot.
Proof. repeat split; discriminate. Qed.

Lemma cleanStep_kept rooted out e :
  keptElem e -> e <> dotdot -> cleanStep rooted out e = e :: out.
Proof.
  intros (_ & He & Hd) Hdd. unfold cleanStep.
  destruct (String.eqb_spec e EmptyString); [contradiction|].
  destruct (String.eqb_spec e "."); [contradiction|].
  destruct (String.eqb_spec e dotdot); [contradiction|]. reflexivity.
Qed.

Lemma cleanStep_scanned rooted out e :
  noSlash e = true -> scanned rooted out -> scanned rooted (cleanStep rooted out e).
Proof.
  intros He (normals & k & -> & Hkept & Hnd & Hk). unfold cleanStep.
  destruct (String.eqb_spec e EmptyString); [now exists normals, k|].
  destruct (String.eqb_spec e "."); [now exists normals, k|].
  destruct (String.eqb_spec e dotdot) as [->|Hdd].
  - destruct normals as [|top normals]; simpl.
    + destruct k as [|k]; simpl.
      * destruct rooted; [exists [], O | exists [], 1%nat]; repeat split; auto; discriminate.
      * exists [], (S (S k)). repeat split; auto. intros Hr. specialize (Hk Hr). discriminate.
    + inversion Hkept; subst. inversion Hnd; subst.
      destruct (String.eqb_spec top dotdot); [contradiction|].
      now exists normals, k.
  - exists (e :: normals), k. repeat split; auto.
    constructor; [repeat split; assumption | assumption].
Qed.

Lemma fold_cleanStep_scanned rooted es out :
  Forall (fun e => noSlash e = true) es -> scanned rooted out ->
  scanned rooted (fold_left (cleanStep rooted) es out).
Proof.
  revert out. induction es as [|e es IH]; intros out Hes Hout; [assumption|].
  inversion Hes; subst. simpl. apply IH; [assumption|]. now apply cleanStep_scanned.
Qed.

Lemma cleanElems_scanned path :
  scanned (isRooted path) (rev (cleanElems path)).
Proof.
  unfold cleanElems. rewrite rev_involutive.
  apply fold_cleanStep_scanned; [apply splitPath_elems|].
  exists [], O. repeat split; auto.
Qed.

Lemma fold_cleanStep_dotdots k j :
  fold_left (cleanStep false) (replicate k dotdot) (replicate j dotdot)
  = replicate (k + j) dotdot.
Proof.
  revert j. induction k as [|k IH]; intros j; [reflexivity|].
  simpl. replace (cleanStep false (replicate j dotdot) dotdot) with (replicate (S j) dotdot).
  - rewrite IH. replace (k + S j)%nat with (S k + j)%nat by lia. reflexivity.
  - destruct j; reflexivity.
Qed.

Lemma fold_cleanStep_kept rooted es out :
  Forall keptElem es -> Forall (fun e => e <> dotdot) es ->
  fold_left (cleanStep rooted) es out = rev es ++ out.
Proof.
  revert out. induction es as [|e es IH]; intros out Hk Hd; [reflexivity|].
  inversion Hk; subst. inversion Hd; subst. simpl.
  rewrite cleanStep_kept, IH by assumption. now rewrite <- app_assoc.
Qed.

(** Scanning the elements of a cleaned path again keeps them all. *)
Lemma fold_cleanStep_cleaned rooted out :
  scanned rooted out ->
  fold_left (cleanStep rooted) (rev out) [] = out.
Proof.
  intros (normals & k & -> & Hkept & Hnd & Hk).
  rewrite rev_app_distr, fold_left_app.
  assert (rev (replicate k dotdot) = replicate k dotdot) as ->.
  { clear. induction k as [|k IH]; [reflexivity|]. simpl. rewrite IH.
    clear. induction k as [|k IH]; [reflexivity|]. simpl. now rewrite IH. }
  assert (fold_left (cleanStep rooted) (replicate k dotdot) [] = replicate k dotdot) as ->.
  { destruct rooted.
    - rewrite Hk by reflexivity. reflexivity.
    - pose proof (fold_cleanStep_dotdots k 0) as H. simpl replicate at 2 in H.
      rewrite H. replace (k + 0)%nat with k by lia. reflexivity. }
  rewrite fold_cleanStep_kept.
  - now rewrite rev_involutive.
  - now apply Forall_rev.
  - now apply Forall_rev.
Qed.

Lemma scanned_elems rooted out :
  scanned rooted out -> Forall keptElem out.
Proof.
  intros (normals & k & -> & Hkept & _). apply Forall_app. split; [assumption|].
  apply Forall_forall. intros e He. apply elem_of_replicate in He as [-> _].
  apply keptElem_dotdot.
Qed.

Lemma isRooted_joinPath es :
  Forall keptElem es -> isRooted (joinPath es) = false.
Proof.
  destruct es as [|e es]; [reflexivity|]. intros H. inversion H as [|? ? (Hs & He & _) _]; subst.
  destruct e as [|c e]; [contradiction|].
  simpl in Hs. apply andb_true_iff in Hs as [Hc _]. apply negb_true_iff in Hc.
  destruct es; simpl; assumption.
Qed.

Lemma isRooted_renderPath rooted es :
  Forall keptElem es -> isRooted (renderPath rooted es) = rooted.
Proof.
  intros H. unfold renderPath. destruct rooted; [reflexivity|].
  destruct es as [|e es]; [reflexivity|]. now apply isRooted_joinPath.
Qed.

Lemma cleanElems_renderPath rooted es :
  scanned rooted (rev es) -> cleanElems (renderPath rooted es) = es.
Proof.
  intros Hsc. pose proof (scanned_elems _ _ Hsc) as Hk. apply Forall_rev in Hk.
  rewrite rev_involutive in Hk.
  assert (Forall (fun e => noSlash e = true) es) as Hns
    by (eapply Forall_impl; [exact Hk | now intros e (? & _)]).
  unfold cleanElems. rewrite isRooted_renderPath by assumption.
  pose proof (fold_cleanStep_cleaned rooted (rev es) Hsc) as Hfold.
  rewrite rev_involutive in Hfold.
  unfold renderPath. destruct rooted.
  - destruct es as [|e es]; [reflexivity|].
    change (splitPath (String Separator (joinPath (e :: es))))
      with (EmptyString :: splitPath (joinPath (e :: es))).
    rewrite splitPath_joinPath by (assumption || discriminate).
    change (fold_left (cleanStep true) (EmptyString :: e :: es) [])
      with (fold_left (cleanStep true) (e :: es) []).
    rewrite Hfold. apply rev_involutive.
  - destruct es as [|e es]; [reflexivity|].
    rewrite splitPath_joinPath by (assumption || discriminate).
    rewrite Hfold. apply rev_involutive.
Qed.

(** [filepath.Clean] is idempotent. *)
Lemma Clean_idempotent path : Clean (Clean path) = Clean path.
Proof.
  pose proof (cleanElems_scanned path) as Hsc.
  pose proof (scanned_elems _ _ Hsc) as Hk. apply Forall_rev in Hk.
  rewrite rev_involutive in Hk.
  unfold Clean at 1. unfold Clean at 1 2.
  rewrite isRooted_renderPath by assumption.
  rewrite cleanElems_renderPath by assumption. reflexivity.
Qed.

Lemma Clean_not_empty path : Clean path <> EmptyString.
Proof.
  unfold Clean, renderPath. destruct (isRooted path); [discriminate|].
  pose proof (cleanElems_scanned path) as Hsc.
  pose proof (scanned_elems _ _ Hsc) as Hk. apply Forall_rev in Hk.
  rewrite rev_involutive in Hk.
  destruct (cleanElems path) as [|e es]; [discriminate|].
  inversion Hk as [|? ? (_ & He & _) _]; subst.
  destruct e; [contradiction|]. destruct es; discriminate.
Qed.

Lemma HasPrefix_empty pre : HasPrefix EmptyString pre = true -> pre = EmptyString.
Proof. destruct pre; [reflexivity | discriminate]. Qed.

(** What the sanitizer accepts is the joined path; it starts with the
    cleaned root and is clean. *)
Lemma sanitizeArchivePath_inl d t v :
  sanitizeArchivePath d t = inl v ->
  v = Join d t /\ HasPrefix v (Clean d) = true /\ Clean v = v.
Proof.
  unfold sanitizeArchivePath.
  destruct (HasPrefix (Join d t) (Clean d)) eqn:Hp; [|discriminate].
  intros [= <-]. repeat split; [assumption|].
  revert Hp. unfold Join.
  destruct (String.eqb d EmptyString).
  - destruct (String.eqb t EmptyString).
    + intros Hp. apply HasPrefix_empty in Hp. now apply Clean_not_empty in Hp.
    + intros _. apply Clean_idempotent.
  - intros _. apply Clean_idempotent.
Qed.

(* ================================================================== *)
(** * Properties of the file system *)
(* ================================================================== *)

Lemma lookupPath_file fs p mode data :
  lookupPath fs p = Some (File mode data) -> fs !! p = Some (File mode data).
Proof.
  unfold lookupPath.
  destruct (String.eqb p "/"); [discriminate|].
  destruct (String.eqb p "."); [discriminate|]. auto.
Qed.

Lemma lookupPath_None fs p : lookupPath fs p = None -> fs !! p = None.
Proof.
  unfold lookupPath.
  destruct (String.eqb p "/"); [discriminate|].
  destruct (String.eqb p "."); [discriminate|]. auto.
Qed.

Lemma fileWritten_refl fs p : ~ fileWritten fs fs p.
Proof. intros (mode & data & H & Hne). contradiction. Qed.

Lemma fileWritten_trans fs fs1 fs2 p :
  fileWritten fs fs2 p -> fileWritten fs fs1 p \/ fileWritten fs1 fs2 p.
Proof.
  intros (mode & data & H2 & Hne).
  destruct (decide (fs1 !! p = Some (File mode data))) as [H1|H1].
  - left. now exists mode, data.
  - right. now exists mode, data.
Qed.

Lemma filesWithin_refl root fs : filesWithin root fs fs.
Proof. intros p H. now apply fileWritten_refl in H. Qed.

Lemma filesWithin_trans root fs fs1 fs2 :
  filesWithin root fs fs1 -> filesWithin root fs1 fs2 -> filesWithin root fs fs2.
Proof.
  intros H1 H2 p H. apply (fileWritten_trans fs fs1 fs2) in H as [H|H]; auto.
Qed.

(** [MkdirAll] makes directories only. *)
Lemma mkdirAllElems_files rooted revElems :
  forall fs fs' p mode data,
    mkdirAllElems rooted fs revElems = Some fs' ->
    fs' !! p = Some (File mode data) -> fs !! p = Some (File mode data).
Proof.
  induction revElems as [|e parent IH]; intros fs fs' p mode data; cbn [mkdirAllElems].
  - destruct (lookupPath fs _) as [[|? ?]|]; intros [= <-]; auto.
  - destruct (lookupPath fs _) as [[|? ?]|]; try (intros [= <-]; now auto).
    destruct (mkdirAllElems rooted fs parent) as [fs1|] eqn:Hm; [|discriminate].
    intros [= <-] Hp.
    match type of Hp with
    | (<[?q := _]> _) !! _ = _ => destruct (decide (q = p)) as [Heq|Hne]
    end.
    + rewrite Heq, lookup_insert_eq in Hp. discriminate.
    + rewrite lookup_insert_ne in Hp by assumption. eapply IH; eauto.
Qed.

Lemma MkdirAll_within root fs p fs' :
  MkdirAll fs p = Some fs' -> filesWithin root fs fs'.
Proof.
  intros Hm q (mode & data & Hq & Hne). exfalso. apply Hne.
  eapply mkdirAllElems_files; eauto.
Qed.

(** [OpenFile] changes the file system at the path it opens only. *)
Lemma OpenFile_other proc fs p mode fs1 q :
  OpenFile proc fs p mode = Some fs1 -> q <> p -> fs1 !! q = fs !! q.
Proof.
  unfold OpenFile. intros H Hne.
  destruct (lookupPath fs p) as [[|perm ?]|]; try discriminate.
  - destruct (mayReadWrite proc perm); [|discriminate]. now injection H as <-.
  - destruct (lookupPath fs (parentPath p)) as [[|? ?]|]; try discriminate.
    injection H as <-. now rewrite lookup_insert_ne by congruence.
Qed.

(** After [OpenFile] the path holds a regular file. *)
Lemma OpenFile_file proc fs p mode fs1 :
  OpenFile proc fs p mode = Some fs1 -> exists mode' old, fs1 !! p = Some (File mode' old).
Proof.
  unfold OpenFile.
  destruct (lookupPath fs p) as [[|mode' old]|] eqn:Hl; try discriminate.
  - destruct (mayReadWrite proc mode'); [|discriminate].
    intros [= <-]. exists mode', old. now apply lookupPath_file.
  - destruct (lookupPath fs (parentPath p)) as [[|? ?]|]; try discriminate.
    intros [= <-]. exists (createdMode proc mode), []. apply lookup_insert_eq.
Qed.

Lemma writeFile_other fs p new q :
  q <> p -> writeFile fs p new !! q = fs !! q.
Proof.
  intros Hne. unfold writeFile.
  destruct (fs !! p) as [[|? ?]|]; try reflexivity.
  now rewrite lookup_insert_ne by congruence.
Qed.

Lemma writeFile_file fs p new mode old :
  fs !! p = Some (File mode old) ->
  writeFile fs p new !! p = Some (File mode (overwrite old new)).
Proof. intros H. unfold writeFile. rewrite H. apply lookup_insert_eq. Qed.

(** Opening a file and writing to it touches that path alone. *)
Lemma written_within proc root fs p mode fs1 new :
  OpenFile proc fs p mode = Some fs1 ->
  HasPrefix p (Clean root) = true ->
  filesWithin root fs (writeFile fs1 p new).
Proof.
  intros Ho Hp q (m & data & Hq & Hne).
  destruct (decide (q = p)) as [->|Hqp]; [assumption|].
  exfalso. apply Hne. rewrite <- Hq.
  rewrite writeFile_other by assumption. symmetry. eapply OpenFile_other; eauto.
Qed.

(** ** What stays on the file system *)

Lemma nodesKept_refl fs : nodesKept fs fs.
Proof. intros p [|mode data] H; eauto. Qed.

Lemma nodesKept_trans fs fs1 fs2 :
  nodesKept fs fs1 -> nodesKept fs1 fs2 -> nodesKept fs fs2.
Proof.
  intros H1 H2 p n Hp. specialize (H1 p n Hp). destruct n as [|mode data].
  - apply (H2 p Dir H1).
  - destruct H1 as (data1 & H1). apply (H2 p (File mode data1) H1).
Qed.

Lemma nodesKept_insert_new fs fs1 p n :
  fs !! p = None -> nodesKept fs fs1 -> nodesKept fs (<[p := n]> fs1).
Proof.
  intros Hnone H q m Hq.
  assert (p <> q) as Hne by congruence.
  specialize (H q m Hq). destruct m; now rewrite lookup_insert_ne by assumption.
Qed.

Lemma mkdirAllElems_kept rooted revElems :
  forall fs fs', mkdirAllElems rooted fs revElems = Some fs' -> nodesKept fs fs'.
Proof.
  induction revElems as [|e parent IH]; intros fs fs'; cbn [mkdirAllElems].
  - destruct (lookupPath fs _) as [[|? ?]|]; intros [= <-]; apply nodesKept_refl.
  - destruct (lookupPath fs _) as [[|? ?]|] eqn:Hl;
      try (intros [= <-]; apply nodesKept_refl); try discriminate.
    destruct (mkdirAllElems rooted fs parent) as [fs1|] eqn:Hm; [|discriminate].
    intros [= <-]. apply nodesKept_insert_new; [now apply lookupPath_None | eauto].
Qed.

Lemma lookupPath_insert fs p n : n = Dir \/ (p <> "/" /\ p <> ".") ->
  lookupPath (<[p := n]> fs) p = Some n.
Proof.
  intros H. unfold lookupPath.
  destruct (String.eqb p "/") eqn:E1.
  { destruct H as [->|[H _]]; [reflexivity|]. now apply String.eqb_eq in E1. }
  destruct (String.eqb p ".") eqn:E2.
  { destruct H as [->|[_ H]]; [reflexivity|]. now apply String.eqb_eq in E2. }
  apply lookup_insert_eq.
Qed.

(** After [MkdirAll] the path is a directory. *)
Lemma mkdirAllElems_made rooted revElems fs fs' :
  mkdirAllElems rooted fs revElems = Some fs' ->
  lookupPath fs' (renderPath rooted (rev revElems)) = Some Dir.
Proof.
  destruct revElems as [|e parent]; cbn [mkdirAllElems].
  - destruct (lookupPath fs _) as [[|? ?]|] eqn:Hl; intros [= <-]; try assumption.
    destruct rooted; discriminate.
  - destruct (lookupPath fs _) as [[|? ?]|] eqn:Hl; try discriminate.
    + now intros [= <-].
    + destruct (mkdirAllElems rooted fs parent) as [fs1|]; [|discriminate].
      intros [= <-]. apply lookupPath_insert. now left.
Qed.

Lemma MkdirAll_kept fs p fs' : MkdirAll fs p = Some fs' -> nodesKept fs fs'.
Proof. apply mkdirAllElems_kept. Qed.

Lemma MkdirAll_made fs p fs' :
  MkdirAll fs p = Some fs' -> Clean p = p -> Stat fs' p = true.
Proof.
  intros H Hc. apply mkdirAllElems_made in H. rewrite rev_involutive in H.
  fold (Clean p) in H. rewrite Hc in H. unfold Stat. now rewrite H.
Qed.

Lemma OpenFile_kept proc fs p mode fs1 :
  OpenFile proc fs p mode = Some fs1 -> nodesKept fs fs1.
Proof.
  unfold OpenFile.
  destruct (lookupPath fs p) as [[|perm ?]|] eqn:Hl; try discriminate.
  - destruct (mayReadWrite proc perm); [|discriminate].
    intros [= <-]. apply nodesKept_refl.
  - destruct (lookupPath fs (parentPath p)) as [[|? ?]|]; try discriminate.
    intros [= <-]. apply nodesKept_insert_new; [now apply lookupPath_None|].
    apply nodesKept_refl.
Qed.

Lemma writeFile_kept fs p new : nodesKept fs (writeFile fs p new).
Proof.
  unfold writeFile. destruct (fs !! p) as [[|mode old]|] eqn:Hp; try apply nodesKept_refl.
  intros q n Hq. destruct (decide (q = p)) as [->|Hne].
  - rewrite Hp in Hq. injection Hq as <-. eexists. apply lookup_insert_eq.
  - destruct n; rewrite lookup_insert_ne by congruence; eauto.
Qed.

Lemma written_kept proc fs p mode fs1 new :
  OpenFile proc fs p mode = Some fs1 -> nodesKept fs (writeFile fs1 p new).
Proof.
  intros H. eapply nodesKept_trans; [eapply OpenFile_kept; eauto | apply writeFile_kept].
Qed.

(** A path that is not one of the two that always hold a directory is
    looked up in the map. *)
Lemma lookupPath_plain fs p :
  lookupPath fs p <> Some Dir -> forall fs', lookupPath fs' p = fs' !! p.
Proof.
  unfold lookupPath. intros H fs'.
  destruct (String.eqb p "/"); [contradiction|].
  destruct (String.eqb p "."); [contradiction|]. reflexivity.
Qed.

Lemma written_isFile proc fs p mode fs1 new :
  OpenFile proc fs p mode = Some fs1 -> isFile (writeFile fs1 p new) p.
Proof.
  intros H. destruct (OpenFile_file _ _ _ _ _ H) as (mode' & old & Hf).
  exists mode', (overwrite old new).
  rewrite (lookupPath_plain fs p); [now apply writeFile_file|].
  unfold OpenFile in H. destruct (lookupPath fs p) as [[|? ?]|]; congruence.
Qed.

Lemma isFile_kept fs fs' p : nodesKept fs fs' -> isFile fs p -> isFile fs' p.
Proof.
  intros H (mode & data & Hp).
  assert (lookupPath fs p <> Some Dir) as Hplain by congruence.
  rewrite (lookupPath_plain fs p Hplain) in Hp.
  destruct (H p _ Hp) as (data' & Hp'). exists mode, data'.
  now rewrite (lookupPath_plain fs p Hplain).
Qed.

Lemma Stat_kept fs fs' p : nodesKept fs fs' -> Stat fs p = true -> Stat fs' p = true.
Proof.
  intros H. unfold Stat, lookupPath.
  destruct (String.eqb p "/"); [auto|]. destruct (String.eqb p "."); [auto|].
  destruct (fs !! p) as [n|] eqn:Hp; [|discriminate]. intros _.
  specialize (H p n Hp). destruct n as [|mode data].
  - now rewrite H.
  - destruct H as (data' & ->). reflexivity.
Qed.

Lemma listedIn_kept root fs fs' fl dl :
  nodesKept fs fs' -> listedIn root fs fl dl -> listedIn root fs' fl dl.
Proof.
  intros H [Hf Hd]. split.
  - eapply Forall_impl; [exact Hf|]. intros p [Hp Hs]. split; [|exact Hs].
    eapply isFile_kept; eauto.
  - eapply Forall_impl; [exact Hd|]. intros p [Hp Hs]. split; [|exact Hs].
    eapply Stat_kept; eauto.
Qed.

Lemma listedIn_app root fs fl dl fl' dl' :
  listedIn root fs fl dl -> listedIn root fs fl' dl' ->
  listedIn root fs (fl ++ fl') (dl ++ dl').
Proof. intros [H1 H2] [H3 H4]. split; apply Forall_app; now split. Qed.

(** A file that is read is a regular file that the process may read. *)
Lemma readFile_Bytes proc fs p data :
  readFile proc fs p = Bytes data ->
  exists mode, lookupPath fs p = Some (File mode data) /\ mayRead proc mode = true.
Proof.
  unfold readFile. destruct (lookupPath fs p) as [[|mode data']|]; try discriminate.
  destruct (mayRead proc mode) eqn:Hr; [|discriminate].
  intros [= <-]. now exists mode.
Qed.

Lemma readFile_isFile proc fs p :
  isFile fs p -> readFile proc fs p <> ReadFailed.
Proof.
  intros (mode & data & H). unfold readFile. rewrite H.
  now destruct (mayRead proc mode).
Qed.

(* ================================================================== *)
(** * Properties of the sanitizer *)
(* ================================================================== *)

Lemma splitPath_cat a b :
  splitPath (a +:+ String Separator b) = splitPath a ++ splitPath b.
Proof.
  induction a as [|c a IH]; [reflexivity|].
  change (splitPath (String c a +:+ String Separator b))
    with (if Ascii.eqb c Separator
          then EmptyString :: splitPath (a +:+ String Separator b)
          else match splitPath (a +:+ String Separator b) with
               | e :: es => String c e :: es
               | [] => [String c EmptyString]
               end).
  rewrite IH. cbn [splitPath].
  destruct (Ascii.eqb c Separator); [reflexivity|].
  pose proof (splitPath_not_nil a) as Hne.
  destruct (splitPath a) as [|e es]; [contradiction | reflexivity].
Qed.

Lemma isRooted_cat d t : d <> EmptyString -> isRooted (d +:+ t) = isRooted d.
Proof. destruct d; [contradiction | reflexivity]. Qed.

(** The scan of a joined path goes on, over the elements of the name,
    from the scan of the root. *)
Lemma cleanElems_cat d t :
  d <> EmptyString ->
  cleanElems (d +:+ String Separator t)
  = rev (fold_left (cleanStep (isRooted d)) (splitPath t) (rev (cleanElems d))).
Proof.
  intros Hd. unfold cleanElems.
  rewrite isRooted_cat, splitPath_cat, fold_left_app by assumption.
  now rewrite rev_involutive.
Qed.

Lemma keptElem_eqb e :
  noSlash e = true ->
  negb (String.eqb e EmptyString) && negb (String.eqb e ".") = true ->
  keptElem e.
Proof.
  intros Hs H. apply andb_true_iff in H as [H1 H2].
  apply negb_true_iff in H1, H2. apply String.eqb_neq in H1, H2. now repeat split.
Qed.

Lemma fold_cleanStep_plain rooted es :
  Forall (fun e => noSlash e = true) es ->
  existsb (String.eqb dotdot) es = false ->
  forall out,
    fold_left (cleanStep rooted) es out
    = rev (List.filter (fun e => negb (String.eqb e EmptyString) && negb (String.eqb e "."))
                       es) ++ out.
Proof.
  induction es as [|e es IH]; intros Hs Hd out; [reflexivity|].
  inversion Hs; subst. cbn [existsb] in Hd. apply orb_false_iff in Hd as [He Hd].
  cbn [fold_left List.filter]. rewrite IH by assumption.
  unfold cleanStep. rewrite (String.eqb_sym e dotdot), He.
  destruct (String.eqb e EmptyString); [reflexivity|].
  destruct (String.eqb e "."); [reflexivity|].
  cbn [negb andb rev]. now rewrite <- app_assoc.
Qed.

Lemma append_empty_r s : s +:+ EmptyString = s.
Proof.
  induction s as [|c s IH]; [reflexivity|].
  change (String c (s +:+ EmptyString) = String c s). now f_equal.
Qed.

Lemma append_assoc s t u : (s +:+ t) +:+ u = s +:+ (t +:+ u).
Proof.
  induction s as [|c s IH]; [reflexivity|].
  change (String c ((s +:+ t) +:+ u) = String c (s +:+ (t +:+ u))). now f_equal.
Qed.

Lemma joinPath_app a b :
  a <> [] ->
  joinPath (a ++ b)
  = joinPath a +:+ match b with [] => EmptyString | _ => String Separator (joinPath b) end.
Proof.
  induction a as [|e a IH]; [congruence|]. intros _.
  destruct a as [|e' a].
  - destruct b as [|e' b].
    + cbn [app joinPath]. now rewrite append_empty_r.
    + reflexivity.
  - change (joinPath ((e :: e' :: a) ++ b))
      with (e +:+ String Separator (joinPath ((e' :: a) ++ b))).
    rewrite IH by discriminate.
    change (joinPath (e :: e' :: a)) with (e +:+ String Separator (joinPath (e' :: a))).
    now rewrite append_assoc.
Qed.

Lemma HasPrefix_renderPath rooted a b :
  rooted = true \/ a <> [] ->
  HasPrefix (renderPath rooted (a ++ b)) (renderPath rooted a) = true.
Proof.
  intros H. unfold renderPath. destruct rooted.
  - change (HasPrefix (joinPath (a ++ b)) (joinPath a) = true).
    destruct a as [|e a]; [reflexivity|].
    rewrite joinPath_app by discriminate. apply HasPrefix_app.
  - destruct H as [H|H]; [discriminate|].
    destruct a as [|e a]; [contradiction|].
    change ((e :: a) ++ b) with (e :: (a ++ b)).
    change (e :: (a ++ b)) with ((e :: a) ++ b).
    rewrite joinPath_app by discriminate.
    destruct ((e :: a) ++ b) eqn:E; [discriminate|]. apply HasPrefix_app.
Qed.

(** The sanitizer under a root that is not empty, by the elements of the
    joined path. *)
Lemma sanitizeArchivePath_elems d t :
  d <> EmptyString ->
  Join d t = renderPath (isRooted d) (cleanElems (d +:+ String Separator t)).
Proof.
  intros Hd. unfold Join. apply String.eqb_neq in Hd. rewrite Hd.
  unfold Clean. rewrite isRooted_cat; [reflexivity|]. now apply String.eqb_neq.
Qed.

(** X2.  A name without a traversal element is accepted under every root that
    is rooted or has an element, and its target is the path of the root
    followed by the elements of the name that are neither empty nor a
    dot. *)
Theorem plain_name_accepted d t :
  d <> EmptyString ->
  isRooted d = true \/ cleanElems d <> [] ->
  hasTraversal t = false ->
  sanitizeArchivePath d t
  = inl (renderPath (isRooted d) (cleanElems d ++ keptOf t)).
Proof.
  intros Hd Hroot Ht. unfold sanitizeArchivePath.
  rewrite sanitizeArchivePath_elems, cleanElems_cat by assumption.
  rewrite fold_cleanStep_plain by (apply splitPath_elems || exact Ht).
  rewrite rev_app_distr, !rev_involutive. fold (keptOf t).
  unfold Clean at 1. now rewrite HasPrefix_renderPath.
Qed.

Lemma plain_name_accepted_witness :
  sanitizeArchivePath "/tmp/karmor" "./etc//hostname" = inl "/tmp/karmor/etc/hostname".
Proof.
  exact (plain_name_accepted "/tmp/karmor" "./etc//hostname"
           ltac:(discriminate) (or_introl eq_refl) eq_refl).
Defined.

(** X3.  A rooted name is taken as the same name without its first separator:
    the joined path is the same, so the entry is extracted below the
    root, or rejected, as the relative name is. *)
Theorem rooted_name_rerooted d t :
  d <> EmptyString ->
  Join d (String Separator t) = Join d t
  /\ sanitizeArchivePath d (String Separator t)
     = match sanitizeArchivePath d t with
       | inl v => inl v
       | inr _ => inr (tainted (String Separator t))
       end.
Proof.
  intros Hd.
  assert (Join d (String Separator t) = Join d t) as HJ.
  { rewrite !sanitizeArchivePath_elems, !cleanElems_cat by assumption. reflexivity. }
  split; [exact HJ|]. unfold sanitizeArchivePath. rewrite HJ.
  now destruct (HasPrefix (Join d t) (Clean d)).
Qed.

Lemma rooted_name_rerooted_witness :
  sanitizeArchivePath "/tmp/karmor" "/etc/passwd" = inl "/tmp/karmor/etc/passwd".
Proof.
  exact (proj2 (rooted_name_rerooted "/tmp/karmor" "etc/passwd" ltac:(discriminate))).
Defined.

(** X1.  What the sanitizer accepts is the joined path, which starts with the
    cleaned root and is a cleaned path itself: cleaning the target again,
    as the extractor does before it opens the file, gives the target. *)
Theorem accepted_target_is_clean d t v :
  sanitizeArchivePath d t = inl v ->
  v = Join d t /\ HasPrefix v (Clean d) = true /\ Clean v = v.
Proof. apply sanitizeArchivePath_inl. Qed.

Lemma accepted_target_is_clean_witness :
  "/tmp/karmor/b" = Join "/tmp/karmor" "a/../b//"
  /\ HasPrefix "/tmp/karmor/b" (Clean "/tmp/karmor") = true
  /\ Clean "/tmp/karmor/b" = "/tmp/karmor/b".
Proof.
  exact (accepted_target_is_clean "/tmp/karmor" "a/../b//" "/tmp/karmor/b" eq_refl).
Defined.

Lemma noSlash_append a b : noSlash a = true -> noSlash b = true -> noSlash (a +:+ b) = true.
Proof.
  induction a as [|c a IH]; [intros _ H; exact H|].
  change (noSlash (String c a +:+ b)) with (negb (Ascii.eqb c Separator) && noSlash (a +:+ b)).
  cbn [noSlash]. intros H Hb. apply andb_true_iff in H as [Hc Ha].
  now rewrite Hc, (IH Ha Hb).
Qed.

Lemma length_append a b : String.length (a +:+ b) = (String.length a + String.length b)%nat.
Proof.
  induction a as [|c a IH]; [reflexivity|].
  change (S (String.length (a +:+ b)) = S (String.length a + String.length b)).
  now f_equal.
Qed.

Lemma length_not_empty s : s <> EmptyString -> (0 < String.length s)%nat.
Proof. destruct s; [contradiction|]. cbn. lia. Qed.

(** An element that is kept, with a suffix without separators: kept as
    well, and not [..]. *)
Lemma keptElem_append e s :
  keptElem e -> noSlash s = true -> s <> EmptyString ->
  keptElem (e +:+ s) /\ e +:+ s <> dotdot.
Proof.
  intros (Hns & Hne & Hdot) Hs Hse.
  pose proof (length_append e s) as Hlen.
  pose proof (length_not_empty e Hne) as He. pose proof (length_not_empty s Hse) as Hs'.
  assert (e +:+ s <> dotdot) as Hdd.
  { intros Heq. rewrite Heq in Hlen. cbn in Hlen.
    assert (String.length e = 1%nat) as He1 by lia.
    assert (String.length s = 1%nat) as Hs1 by lia.
    destruct e as [|c [|c' e]]; try discriminate.
    change (String c s = dotdot) in Heq. injection Heq as -> _. now apply Hdot. }
  split; [|exact Hdd]. repeat split.
  - now apply noSlash_append.
  - intros Heq. rewrite Heq in Hlen. cbn in Hlen. lia.
  - intros Heq. rewrite Heq in Hlen. cbn in Hlen. lia.
Qed.

Lemma joinPath_snoc es e s : joinPath (es ++ [e +:+ s]) = joinPath (es ++ [e]) +:+ s.
Proof.
  induction es as [|e' es IH]; [reflexivity|].
  destruct es as [|e'' es].
  - cbn [app joinPath]. now rewrite append_assoc.
  - change (joinPath ((e' :: e'' :: es) ++ [e +:+ s]))
      with (e' +:+ String Separator (joinPath ((e'' :: es) ++ [e +:+ s]))).
    rewrite IH.
    change (joinPath ((e' :: e'' :: es) ++ [e]))
      with (e' +:+ String Separator (joinPath ((e'' :: es) ++ [e]))).
    now rewrite append_assoc.
Qed.

Lemma HasPrefix_append a x y : HasPrefix (a +:+ x) (a +:+ y) = HasPrefix x y.
Proof.
  induction a as [|c a IH]; [reflexivity|].
  change (Ascii.eqb c c && HasPrefix (a +:+ x) (a +:+ y) = HasPrefix x y).
  now rewrite Ascii.eqb_refl.
Qed.

(** X4.  The prefix test has no separator after the root.  Under a rooted and
    cleaned root [d] whose last element is [e], the name that leaves the
    root by [..] and enters the directory beside it called [e] followed by
    any [s] is accepted, and its target is the path of the root followed
    by [s]: a path that is not below the root. *)
Theorem sibling_of_root_accepted d es e s :
  isRooted d = true -> Clean d = d -> cleanElems d = es ++ [e] ->
  noSlash s = true -> s <> EmptyString ->
  sanitizeArchivePath d (dotdot +:+ String Separator (e +:+ s)) = inl (d +:+ s)
  /\ HasPrefix (d +:+ s) (d +:+ String Separator EmptyString) = false.
Proof.
  intros Hr Hc He Hs Hse.
  assert (d <> EmptyString) as Hd by (intros ->; discriminate).
  assert (keptElem e /\ e <> dotdot) as [Hk Hdd].
  { pose proof (cleanElems_scanned d) as (normals & k & Heq & Hkept & Hnd & Hk).
    rewrite (Hk Hr), app_nil_r in Heq. subst normals.
    rewrite He, rev_app_distr in Hkept, Hnd. cbn in Hkept, Hnd.
    inversion Hkept; inversion Hnd; subst. now split. }
  destruct (keptElem_append e s Hk Hs Hse) as [Hk' Hdd'].
  assert (Join d (dotdot +:+ String Separator (e +:+ s)) = d +:+ s) as HJ.
  { rewrite sanitizeArchivePath_elems, cleanElems_cat by assumption.
    rewrite splitPath_app by reflexivity.
    rewrite splitPath_noSlash by (apply noSlash_append; [apply Hk | exact Hs]).
    rewrite He, rev_app_distr, Hr. cbn [rev app fold_left].
    assert (cleanStep true (e :: rev es) dotdot = rev es) as ->.
    { unfold cleanStep. cbn [String.eqb Ascii.eqb].
      apply String.eqb_neq in Hdd. now rewrite Hdd. }
    rewrite cleanStep_kept by assumption. cbn [rev]. rewrite rev_involutive.
    unfold renderPath. rewrite joinPath_snoc.
    rewrite <- Hc. unfold Clean, renderPath. now rewrite Hr, He. }
  split.
  - unfold sanitizeArchivePath. rewrite HJ, Hc, HasPrefix_app. reflexivity.
  - rewrite HasPrefix_append. destruct s as [|c s]; [contradiction|].
    cbn [noSlash] in Hs. apply andb_true_iff in Hs as [Hcs _].
    apply negb_true_iff in Hcs. cbn [HasPrefix]. rewrite Ascii.eqb_sym.
    now rewrite Hcs.
Qed.

Lemma sibling_of_root_accepted_witness :
  sanitizeArchivePath "/tmp/karmor" "../karmor-cache" = inl "/tmp/karmor-cache"
  /\ HasPrefix "/tmp/karmor-cache" "/tmp/karmor/" = false.
Proof.
  exact (sibling_of_root_accepted "/tmp/karmor" ["tmp"] "karmor" "-cache"
           eq_refl eq_refl eq_refl eq_refl ltac:(discriminate)).
Defined.

(* ================================================================== *)
(** * Properties of the extractor *)
(* ================================================================== *)

(** Case analysis on the tests of the loop body, in the order in which
    the loop makes them. *)
Ltac loop_cases :=
  repeat match goal with
  | |- context [match sanitizeArchivePath ?d ?t with _ => _ end] =>
      destruct (sanitizeArchivePath d t) eqn:?
  | |- context [if Ascii.eqb ?a ?b then _ else _] => destruct (Ascii.eqb a b) eqn:?
  | |- context [if Stat ?fs ?p then _ else _] => destruct (Stat fs p) eqn:?
  | |- context [match MkdirAll ?fs ?p with _ => _ end] => destruct (MkdirAll fs p) eqn:?
  | |- context [if existsb ?f ?l then _ else _] => destruct (existsb f l) eqn:?
  | |- context [match OpenFile ?pr ?fs ?p ?m with _ => _ end] => destruct (OpenFile pr fs p m) eqn:?
  | |- context [if N.leb ?a ?b then _ else _] => destruct (N.leb a b) eqn:?
  | |- context [if negb ?c then _ else _] => is_var c; destruct c; cbn [negb]
  | |- context [if HasSuffix ?s ?t then _ else _] => destruct (HasSuffix s t) eqn:?
  end.

Section ExtractorProperties.

Variable proc : process.
Variable tempDir : string.
Variable tarDecode : list ascii -> tar.Reader.

Local Abbreviation loop := (extractEntries proc tempDir).

(** The loop sees its recursive call only through its results. *)
Lemma extractEntries_ext rec1 rec2 reading tr :
  (forall fs t, rec1 fs t = rec2 fs t) ->
  forall fs fl dl, loop rec1 reading tr fs fl dl = loop rec2 reading tr fs fl dl.
Proof.
  intros Hrec. induction tr as [| | hdr body clean rest IH]; intros fs fl dl;
    cbn [extractEntries]; try reflexivity.
  loop_cases; rewrite ?IH; try reflexivity.
  rewrite Hrec. destruct (rec2 _ _) as [[[fs3 ifl] idl]| | |]; auto.
Qed.






(** A regular file that reaches the copy. *)
Lemma extractEntries_regular rec reading hdr body clean rest fs fl dl tgt fs1 :
  sanitizeArchivePath tempDir (tar.Name hdr) = inl tgt ->
  tar.Typeflag hdr = tar.TypeReg ->
  existsb (String.eqb (Clean tgt)) reading = false ->
  OpenFile proc fs (Clean tgt) (tar.Mode hdr) = Some fs1 ->
  loop rec reading (tar.Entry hdr body clean rest) fs fl dl
  = if (copyLimit <=? N.of_nat (length body))%N then
      Fatal "tar io.Copy()" (writeFile fs1 (Clean tgt) (take (N.to_nat copyLimit) body))
    else if negb clean then Fatal "tar io.Copy()" (writeFile fs1 (Clean tgt) body)
    else if HasSuffix tgt "layer.tar" then
      match rec (writeFile fs1 (Clean tgt) body) tgt with
      | Ok (fs3, ifl, idl) => loop rec reading rest fs3 (fl ++ ifl) (dl ++ idl)
      | failed => failed
      end
    else loop rec reading rest (writeFile fs1 (Clean tgt) body) (fl ++ [tgt]) dl.
Proof.
  intros Hs Hreg Hguard Hopen. cbn [extractEntries].
  rewrite Hs, Hreg, Hguard, Hopen. reflexivity.
Qed.

(** C4, as amended.  A regular file that reaches the copy with as many
    bytes as the ceiling, or more, ends the extraction in the fatal error
    of the copy: no file list is returned, so the file, written up to the
    ceiling, is in none.  With fewer bytes, the copy ends in [io.EOF] when
    the entry is read to its end, and the loop goes on: into the nested
    layer when the target carries the layer suffix, and otherwise with the
    next entry, the target appended to the file list.  With fewer bytes
    and an entry that is cut off, the read fails, and the extraction ends
    in the fatal error of the copy as well. *)
Theorem copy_ceiling rec reading hdr body clean rest fs fl dl tgt fs1 :
  sanitizeArchivePath tempDir (tar.Name hdr) = inl tgt ->
  tar.Typeflag hdr = tar.TypeReg ->
  existsb (String.eqb (Clean tgt)) reading = false ->
  OpenFile proc fs (Clean tgt) (tar.Mode hdr) = Some fs1 ->
  ((copyLimit <= N.of_nat (length body))%N ->
     loop rec reading (tar.Entry hdr body clean rest) fs fl dl
     = Fatal "tar io.Copy()"
             (writeFile fs1 (Clean tgt) (take (N.to_nat copyLimit) body)))
  /\ ((N.of_nat (length body) < copyLimit)%N -> clean = true ->
        loop rec reading (tar.Entry hdr body clean rest) fs fl dl
        = if HasSuffix tgt "layer.tar" then
            match rec (writeFile fs1 (Clean tgt) body) tgt with
            | Ok (fs3, ifl, idl) => loop rec reading rest fs3 (fl ++ ifl) (dl ++ idl)
            | failed => failed
            end
          else loop rec reading rest (writeFile fs1 (Clean tgt) body) (fl ++ [tgt]) dl)
  /\ ((N.of_nat (length body) < copyLimit)%N -> clean = false ->
        loop rec reading (tar.Entry hdr body clean rest) fs fl dl
        = Fatal "tar io.Copy()" (writeFile fs1 (Clean tgt) body)).
Proof.
  intros Hs Hreg Hguard Hopen.
  rewrite (extractEntries_regular rec reading hdr body clean rest fs fl dl tgt fs1)
    by assumption.
  split; [|split].
  - intros Hle. apply N.leb_le in Hle. now rewrite Hle.
  - intros Hlt ->. apply N.leb_gt in Hlt. now rewrite Hlt.
  - intros Hlt ->. apply N.leb_gt in Hlt. now rewrite Hlt.
Qed.

(** ** The file list *)



Lemma extractEntries_specFileList rec reading :
  forall tr fs fl dl fs' fl' dl',
    loop rec reading tr fs fl dl = Ok (fs', fl', dl') ->
    fl' = fl ++ specFileList proc tempDir rec tr fs.
Proof.
  induction tr as [| | hdr body clean rest IH]; intros fs fl dl fs' fl' dl';
    cbn [extractEntries specFileList]; try discriminate.
  - intros [= <- <- <-]. now rewrite app_nil_r.
  - unfold afterMkdir, afterWrite.
    loop_cases; try discriminate; try (apply IH).
    + destruct (rec _ _) as [[[fs3 ifl] idl]| | |] eqn:Hr; try discriminate.
      intros H. apply IH in H. now rewrite <- app_assoc in H.
    + intros H. apply IH in H. now rewrite <- app_assoc in H.
Qed.

(** ** Where files are written *)

Lemma sanitized_target_within tgt name :
  sanitizeArchivePath tempDir name = inl tgt ->
  HasPrefix (Clean tgt) (Clean tempDir) = true.
Proof.
  intros H. apply sanitizeArchivePath_inl in H as (_ & Hp & Hc). now rewrite Hc.
Qed.

Lemma extractEntries_within rec reading :
  (forall fs t fs', outcomeFS inventoryFS (rec fs t) = Some fs' -> filesWithin tempDir fs fs') ->
  forall tr fs fl dl fs',
    outcomeFS inventoryFS (loop rec reading tr fs fl dl) = Some fs' ->
    filesWithin tempDir fs fs'.
Proof.
  intros Hrec. induction tr as [| | hdr body clean rest IH]; intros fs fl dl fs';
    cbn [extractEntries].
  - intros [= <-]. apply filesWithin_refl.
  - intros [= <-]. apply filesWithin_refl.
  - destruct (sanitizeArchivePath tempDir (tar.Name hdr)) as [tgt|e] eqn:Hs; [|apply IH].
    pose proof (sanitized_target_within _ _ Hs) as Hin.
    destruct (Ascii.eqb (tar.Typeflag hdr) tar.TypeDir).
    { destruct (Stat fs tgt); [apply IH|].
      destruct (MkdirAll fs tgt) as [fs1|] eqn:Hm.
      - intros H. eapply filesWithin_trans; [eapply MkdirAll_within; eauto | eapply IH; eauto].
      - intros [= <-]. apply filesWithin_refl. }
    destruct (Ascii.eqb (tar.Typeflag hdr) tar.TypeReg); [|apply IH].
    destruct (existsb _ reading); [discriminate|].
    destruct (OpenFile proc fs (Clean tgt) (tar.Mode hdr)) as [fs1|] eqn:Ho;
      [|intros [= <-]; apply filesWithin_refl].
    destruct (copyLimit <=? N.of_nat (length body))%N;
      [intros [= <-]; eapply written_within; eauto|].
    destruct clean; cbn [negb]; [|intros [= <-]; eapply written_within; eauto].
    pose proof (written_within proc tempDir fs (Clean tgt) (tar.Mode hdr) fs1 body Ho Hin) as Hw.
    destruct (HasSuffix tgt "layer.tar").
    + destruct (rec _ tgt) as [[[fs3 ifl] idl]|msg fs3| |] eqn:Hr; try discriminate.
      * intros H. eapply filesWithin_trans; [exact Hw|].
        eapply filesWithin_trans; [|eapply IH; eauto].
        apply (Hrec _ tgt). now rewrite Hr.
      * intros [= <-]. eapply filesWithin_trans; [exact Hw|].
        apply (Hrec _ tgt). now rewrite Hr.
    + intros H. eapply filesWithin_trans; [exact Hw | eapply IH; eauto].
Qed.

Lemma extractTarIn_within fuel :
  forall reading fs tarname fs',
    outcomeFS inventoryFS (extractTarIn proc tempDir tarDecode fuel reading fs tarname) = Some fs' ->
    filesWithin tempDir fs fs'.
Proof.
  induction fuel as [|fuel IH]; intros reading fs tarname fs'; cbn [extractTarIn];
    [discriminate|].
  destruct (readFile proc fs (Clean tarname)) as [| |data];
    try (intros [= <-]; apply filesWithin_refl).
  apply extractEntries_within. intros; eapply IH; eauto.
Qed.

(** What the sanitizer rejects and what it accepts, by the prefix test on
    the joined path. *)
Lemma sanitizeArchivePath_rejects d t :
  HasPrefix (Join d t) (Clean d) = false -> sanitizeArchivePath d t = inr (tainted t).
Proof. intros H. unfold sanitizeArchivePath. now rewrite H. Qed.

Lemma sanitizeArchivePath_accepts d t :
  Join d t = Clean d \/ HasPrefix (Join d t) (Clean d +:+ "/") = true ->
  sanitizeArchivePath d t = inl (Join d t).
Proof.
  intros H. unfold sanitizeArchivePath.
  replace (HasPrefix (Join d t) (Clean d)) with true; [reflexivity|].
  symmetry. destruct H as [->|H]; [apply HasPrefix_refl|].
  eapply HasPrefix_trans; [exact H | apply HasPrefix_app].
Qed.

(** X20.  Every regular file that an extraction creates or writes,
    also one that ends in a fatal error, has a path that starts with the
    cleaned root, as a string: the test of the sanitizer.  This does not
    keep the files below the root, since the path of a directory beside
    the root may start with the path of the root. *)
Theorem written_paths_start_with_root fuel fs tarname fs' :
  outcomeFS inventoryFS (extractTar proc tempDir tarDecode fuel fs tarname) = Some fs' ->
  filesWithin tempDir fs fs'.
Proof. unfold extractTar. apply extractTarIn_within. Qed.

(** C2. The file list that an extraction returns is the concatenation, in
    the order of the entries of the archive, of the path of every regular
    file without the layer suffix and, for every regular file with it, of
    the file list that the extraction of that file returned: nothing is
    removed or reordered. *)
Theorem file_list_in_entry_order fuel reading fs tarname fs' fl dl :
  extractTarIn proc tempDir tarDecode (S fuel) reading fs tarname = Ok (fs', fl, dl) ->
  exists mode data,
    lookupPath fs (Clean tarname) = Some (File mode data)
    /\ fl = specFileList proc tempDir
              (extractTarIn proc tempDir tarDecode fuel (Clean tarname :: reading))
              (tarDecode data) fs.
Proof.
  cbn [extractTarIn].
  destruct (readFile proc fs (Clean tarname)) as [| |data] eqn:Hr; try discriminate.
  intros H. apply readFile_Bytes in Hr as (mode & Hl & _).
  exists mode, data. split; [exact Hl|].
  now apply extractEntries_specFileList in H.
Qed.


(** An archive none of whose targets carries the layer suffix: the file
    list is the list of the targets of its regular files. *)
Lemma extractEntries_flat rec reading :
  forall tr fs fl dl fs' fl' dl',
    Forall plainFile (regularTargets tempDir tr) ->
    loop rec reading tr fs fl dl = Ok (fs', fl', dl') ->
    fl' = fl ++ regularTargets tempDir tr.
Proof.
  induction tr as [| | hdr body clean rest IH]; intros fs fl dl fs' fl' dl' Hplain;
    cbn [extractEntries regularTargets] in *; try discriminate.
  - intros [= <- <- <-]. now rewrite app_nil_r.
  - destruct (sanitizeArchivePath tempDir (tar.Name hdr)) as [tgt|e] eqn:Hs; [|now apply IH].
    destruct (Ascii.eqb (tar.Typeflag hdr) tar.TypeDir) eqn:Hd.
    { assert (Ascii.eqb (tar.Typeflag hdr) tar.TypeReg = false) as Hr.
      { apply Ascii.eqb_eq in Hd. now rewrite Hd. }
      rewrite Hr in *.
      destruct (Stat fs tgt); [now apply IH|].
      destruct (MkdirAll fs tgt); [now apply IH | discriminate]. }
    destruct (Ascii.eqb (tar.Typeflag hdr) tar.TypeReg); [|now apply IH].
    apply Forall_cons in Hplain as [Htgt Hplain]. unfold plainFile in Htgt.
    rewrite Htgt.
    loop_cases; try discriminate.
    intros H. apply IH in H; [|assumption]. now rewrite <- app_assoc in H.
Qed.

(** ** What an extraction leaves and lists *)

Lemma extractEntries_kept rec reading :
  (forall fs t fs', outcomeFS inventoryFS (rec fs t) = Some fs' -> nodesKept fs fs') ->
  forall tr fs fl dl fs',
    outcomeFS inventoryFS (loop rec reading tr fs fl dl) = Some fs' ->
    nodesKept fs fs'.
Proof.
  intros Hrec. induction tr as [| | hdr body clean rest IH]; intros fs fl dl fs';
    cbn [extractEntries].
  - intros [= <-]. apply nodesKept_refl.
  - intros [= <-]. apply nodesKept_refl.
  - destruct (sanitizeArchivePath tempDir (tar.Name hdr)) as [tgt|e] eqn:Hs; [|apply IH].
    destruct (Ascii.eqb (tar.Typeflag hdr) tar.TypeDir).
    { destruct (Stat fs tgt); [apply IH|].
      destruct (MkdirAll fs tgt) as [fs1|] eqn:Hm.
      - intros H. eapply nodesKept_trans; [eapply MkdirAll_kept; eauto | eapply IH; eauto].
      - intros [= <-]. apply nodesKept_refl. }
    destruct (Ascii.eqb (tar.Typeflag hdr) tar.TypeReg); [|apply IH].
    destruct (existsb _ reading); [discriminate|].
    destruct (OpenFile proc fs (Clean tgt) (tar.Mode hdr)) as [fs1|] eqn:Ho;
      [|intros [= <-]; apply nodesKept_refl].
    destruct (copyLimit <=? N.of_nat (length body))%N;
      [intros [= <-]; eapply written_kept; eauto|].
    destruct clean; cbn [negb]; [|intros [= <-]; eapply written_kept; eauto].
    pose proof (written_kept proc fs (Clean tgt) (tar.Mode hdr) fs1 body Ho) as Hw.
    destruct (HasSuffix tgt "layer.tar").
    + destruct (rec _ tgt) as [[[fs3 ifl] idl]|msg fs3| |] eqn:Hr; try discriminate.
      * intros H. eapply nodesKept_trans; [exact Hw|].
        eapply nodesKept_trans; [|eapply IH; eauto].
        apply (Hrec _ tgt). now rewrite Hr.
      * intros [= <-]. eapply nodesKept_trans; [exact Hw|].
        apply (Hrec _ tgt). now rewrite Hr.
    + intros H. eapply nodesKept_trans; [exact Hw | eapply IH; eauto].
Qed.

Lemma extractTarIn_kept fuel :
  forall reading fs tarname fs',
    outcomeFS inventoryFS (extractTarIn proc tempDir tarDecode fuel reading fs tarname) = Some fs' ->
    nodesKept fs fs'.
Proof.
  induction fuel as [|fuel IH]; intros reading fs tarname fs'; cbn [extractTarIn];
    [discriminate|].
  destruct (readFile proc fs (Clean tarname)) as [| |data];
    try (intros [= <-]; apply nodesKept_refl).
  apply extractEntries_kept. intros; eapply IH; eauto.
Qed.

Lemma sanitized_target tgt name :
  sanitizeArchivePath tempDir name = inl tgt -> sanitized tempDir tgt.
Proof. intros H. apply sanitizeArchivePath_inl in H as (_ & Hp & Hc). now split. Qed.

Lemma extractEntries_listed rec reading :
  (forall fs t fs' ifl idl,
      rec fs t = Ok (fs', ifl, idl) -> nodesKept fs fs' /\ listedIn tempDir fs' ifl idl) ->
  forall tr fs fl dl fs' fl' dl',
    listedIn tempDir fs fl dl ->
    loop rec reading tr fs fl dl = Ok (fs', fl', dl') ->
    listedIn tempDir fs' fl' dl'.
Proof.
  intros Hrec. induction tr as [| | hdr body clean rest IH];
    intros fs fl dl fs' fl' dl' Hl; cbn [extractEntries]; try discriminate.
  - now intros [= <- <- <-].
  - destruct (sanitizeArchivePath tempDir (tar.Name hdr)) as [tgt|e] eqn:Hs;
      [|now apply IH].
    pose proof (sanitized_target _ _ Hs) as Hsan.
    destruct (Ascii.eqb (tar.Typeflag hdr) tar.TypeDir).
    { destruct (Stat fs tgt) eqn:Hst.
      - apply IH. apply (listedIn_app _ _ fl dl [] [tgt]) in Hl.
        + now rewrite app_nil_r in Hl.
        + split; [constructor | constructor; [now split | constructor]].
      - destruct (MkdirAll fs tgt) as [fs1|] eqn:Hm; [|discriminate].
        apply IH. apply (listedIn_kept _ _ fs1) in Hl; [|eapply MkdirAll_kept; eauto].
        apply (listedIn_app _ _ fl dl [] [tgt]) in Hl.
        + now rewrite app_nil_r in Hl.
        + split; [constructor | constructor; [split; [|assumption] | constructor]].
          eapply MkdirAll_made; [eauto | apply Hsan]. }
    destruct (Ascii.eqb (tar.Typeflag hdr) tar.TypeReg); [|now apply IH].
    destruct (existsb _ reading); [discriminate|].
    destruct (OpenFile proc fs (Clean tgt) (tar.Mode hdr)) as [fs1|] eqn:Ho; [|discriminate].
    destruct (copyLimit <=? N.of_nat (length body))%N; [discriminate|].
    destruct clean; cbn [negb]; [|discriminate].
    pose proof (written_kept proc fs (Clean tgt) (tar.Mode hdr) fs1 body Ho) as Hw.
    apply (listedIn_kept _ _ _ _ _ Hw) in Hl.
    destruct (HasSuffix tgt "layer.tar").
    + destruct (rec _ tgt) as [[[fs3 ifl] idl]|msg fs3| |] eqn:Hr; try discriminate.
      destruct (Hrec _ _ _ _ _ Hr) as [Hk Hli].
      apply IH. apply listedIn_app; [|exact Hli]. eapply listedIn_kept; eauto.
    + apply IH. apply (listedIn_app _ _ fl dl [tgt] []) in Hl.
      * now rewrite app_nil_r in Hl.
      * split; [constructor; [split; [|assumption] | constructor] | constructor].
        pose proof (written_isFile proc fs (Clean tgt) (tar.Mode hdr) fs1 body Ho) as Hf.
        destruct Hsan as [Hc _]. set (fs2 := writeFile fs1 (Clean tgt) body) in *.
        now rewrite Hc in Hf.
Qed.

Lemma extractTarIn_listed fuel :
  forall reading fs tarname fs' fl dl,
    extractTarIn proc tempDir tarDecode fuel reading fs tarname = Ok (fs', fl, dl) ->
    listedIn tempDir fs' fl dl.
Proof.
  induction fuel as [|fuel IH]; intros reading fs tarname fs' fl dl; cbn [extractTarIn];
    [discriminate|].
  destruct (readFile proc fs (Clean tarname)) as [| |data]; try discriminate.
  apply extractEntries_listed; [|split; constructor].
  intros fs0 t fs0' ifl idl Hr. split; [|eapply IH; eauto].
  eapply extractTarIn_kept. now rewrite Hr.
Qed.

(** X5.  An extraction removes nothing: whatever it ends in, a directory that
    was there is still a directory, and a regular file that was there is
    still a regular file, with the mode it had: the mode of an entry is
    given to a file that the entry creates, never to one that exists. *)
Theorem extraction_keeps_nodes fuel fs tarname fs' :
  outcomeFS inventoryFS (extractTar proc tempDir tarDecode fuel fs tarname) = Some fs' ->
  nodesKept fs fs'.
Proof. unfold extractTar. apply extractTarIn_kept. Qed.

(** X6.  When an extraction returns, every path of its file list is a
    sanitized target that holds a regular file, and every path of its
    directory list is a sanitized target that exists. *)
Theorem listed_paths_exist fuel fs tarname fs' fl dl :
  extractTar proc tempDir tarDecode fuel fs tarname = Ok (fs', fl, dl) ->
  listedIn tempDir fs' fl dl.
Proof. unfold extractTar. apply extractTarIn_listed. Qed.

(** ** Archives without nested layers *)

Lemma extractEntries_dirs rec reading :
  forall tr fs fl dl fs' fl' dl',
    Forall plainFile (regularTargets tempDir tr) ->
    loop rec reading tr fs fl dl = Ok (fs', fl', dl') ->
    dl' = dl ++ dirTargets tempDir tr.
Proof.
  induction tr as [| | hdr body clean rest IH]; intros fs fl dl fs' fl' dl' Hplain;
    cbn [extractEntries regularTargets dirTargets] in *; try discriminate.
  - intros [= <- <- <-]. now rewrite app_nil_r.
  - destruct (sanitizeArchivePath tempDir (tar.Name hdr)) as [tgt|e] eqn:Hs; [|now apply IH].
    destruct (Ascii.eqb (tar.Typeflag hdr) tar.TypeDir) eqn:Hd.
    { assert (Ascii.eqb (tar.Typeflag hdr) tar.TypeReg = false) as Hr.
      { apply Ascii.eqb_eq in Hd. now rewrite Hd. }
      rewrite Hr in *.
      destruct (Stat fs tgt).
      - intros H. apply IH in H; [|assumption]. now rewrite <- app_assoc in H.
      - destruct (MkdirAll fs tgt); [|discriminate].
        intros H. apply IH in H; [|assumption]. now rewrite <- app_assoc in H. }
    destruct (Ascii.eqb (tar.Typeflag hdr) tar.TypeReg); [|now apply IH].
    apply Forall_cons in Hplain as [Htgt Hplain]. unfold plainFile in Htgt.
    rewrite Htgt.
    loop_cases; try discriminate. now apply IH.
Qed.

(** X7.  An archive none of whose regular files has a target with the layer
    suffix: the file list is the list of the targets of its regular files
    and the directory list the list of the targets of its directories,
    both in the order of the entries and with every repetition; a
    directory is listed whether it was made or was there. *)
Theorem flat_archive_inventory fuel fs tarname mode data fs' fl dl :
  lookupPath fs (Clean tarname) = Some (File mode data) ->
  Forall plainFile (regularTargets tempDir (tarDecode data)) ->
  extractTar proc tempDir tarDecode (S fuel) fs tarname = Ok (fs', fl, dl) ->
  fl = regularTargets tempDir (tarDecode data)
  /\ dl = dirTargets tempDir (tarDecode data).
Proof.
  intros Hl Hplain. unfold extractTar. cbn [extractTarIn]. unfold readFile. rewrite Hl.
  destruct (mayRead proc mode); [|discriminate]. intros H. split.
  - now apply extractEntries_flat in H.
  - now apply extractEntries_dirs in H.
Qed.

(** X8.  A regular file whose target does not exist and whose parent is not a
    directory: [os.OpenFile] fails, and the extraction ends in the fatal
    error of the open with nothing written for the entry.  The extractor
    makes no directory for a file: an archive has to bring the entry of a
    directory before the files in it. *)
Theorem missing_parent_is_fatal rec reading hdr body clean rest fs fl dl tgt :
  sanitizeArchivePath tempDir (tar.Name hdr) = inl tgt ->
  tar.Typeflag hdr = tar.TypeReg ->
  existsb (String.eqb tgt) reading = false ->
  lookupPath fs tgt = None ->
  lookupPath fs (parentPath tgt) <> Some Dir ->
  loop rec reading (tar.Entry hdr body clean rest) fs fl dl = Fatal "tar open file" fs.
Proof.
  intros Hs Hreg Hguard Hnone Hparent. cbn [extractEntries]. rewrite Hs, Hreg.
  apply sanitizeArchivePath_inl in Hs as (_ & _ & Hc). rewrite Hc, Hguard.
  cbn. unfold OpenFile. rewrite Hnone.
  destruct (lookupPath fs (parentPath tgt)) as [[|? ?]|]; congruence.
Qed.

(** ** Entries of other types *)

Lemma extractEntries_dirsAndFiles rec reading tr :
  forall fs fl dl,
    loop rec reading (dirsAndFiles tr) fs fl dl = loop rec reading tr fs fl dl.
Proof.
  induction tr as [| | hdr body clean rest IH]; intros fs fl dl; try reflexivity.
  cbn [dirsAndFiles].
  destruct (Ascii.eqb (tar.Typeflag hdr) tar.TypeDir) eqn:Hd;
    [|destruct (Ascii.eqb (tar.Typeflag hdr) tar.TypeReg) eqn:Hr]; cbn [orb].
  - cbn [extractEntries]. rewrite Hd. loop_cases; rewrite ?IH; reflexivity.
  - cbn [extractEntries]. rewrite Hd, Hr. loop_cases; rewrite ?IH; try reflexivity.
    destruct (rec _ _) as [[[fs3 ifl] idl]| | |]; auto.
  - rewrite IH. cbn [extractEntries]. rewrite Hd, Hr.
    now destruct (sanitizeArchivePath tempDir (tar.Name hdr)).
Qed.

Lemma extractTarIn_dirsAndFiles fuel :
  forall reading fs tarname,
    extractTarIn proc tempDir (fun b => dirsAndFiles (tarDecode b)) fuel reading fs tarname
    = extractTarIn proc tempDir tarDecode fuel reading fs tarname.
Proof.
  induction fuel as [|fuel IH]; intros reading fs tarname; [reflexivity|].
  cbn [extractTarIn].
  destruct (readFile proc fs (Clean tarname)) as [| |data]; try reflexivity.
  rewrite extractEntries_dirsAndFiles. apply extractEntries_ext. intros; apply IH.
Qed.

(** X9.  The extractor handles directories and regular files only.  Entries
    of every other type, links among them, are passed over: an extraction
    ends as the extraction of the archive without them, nested layers
    included, so nothing is made or listed for them. *)
Theorem other_entries_skipped fuel fs tarname :
  extractTar proc tempDir tarDecode fuel fs tarname
  = extractTar proc tempDir (fun b => dirsAndFiles (tarDecode b)) fuel fs tarname.
Proof. unfold extractTar. symmetry. apply extractTarIn_dirsAndFiles. Qed.

(** ** The contents of the files *)

(** X10.  A regular file is opened without truncation.  An entry that is
    copied in full over a file that exists, and that the process may read
    and write, leaves the file with its mode, the bytes of the entry, and
    behind them the bytes that the file had beyond the length of the
    entry. *)
Theorem existing_file_not_truncated rec reading hdr body rest fs fl dl tgt mode old :
  sanitizeArchivePath tempDir (tar.Name hdr) = inl tgt ->
  tar.Typeflag hdr = tar.TypeReg ->
  existsb (String.eqb tgt) reading = false ->
  lookupPath fs tgt = Some (File mode old) ->
  mayReadWrite proc mode = true ->
  (N.of_nat (length body) < copyLimit)%N ->
  HasSuffix tgt "layer.tar" = false ->
  loop rec reading (tar.Entry hdr body true rest) fs fl dl
  = loop rec reading rest
         (<[tgt := File mode (body ++ drop (length body) old)]> fs) (fl ++ [tgt]) dl.
Proof.
  intros Hs Hreg Hguard Hfile Hperm Hlt Hplain.
  pose proof (sanitizeArchivePath_inl _ _ _ Hs) as (_ & _ & Hc).
  assert (OpenFile proc fs (Clean tgt) (tar.Mode hdr) = Some fs) as Hopen.
  { rewrite Hc. unfold OpenFile. now rewrite Hfile, Hperm. }
  rewrite (extractEntries_regular rec reading hdr body true rest fs fl dl tgt fs)
    by (assumption || now rewrite Hc).
  apply N.leb_gt in Hlt. rewrite Hlt, Hplain, Hc. cbn [negb].
  unfold writeFile. apply lookupPath_file in Hfile. now rewrite Hfile.
Qed.

(** X11.  An entry that is copied in full to a path that does not exist,
    and that [os.OpenFile] creates, makes a file with the bytes of the
    entry and, for its mode, the nine permission bits of the mode of the
    entry less the bits of the mask of the process. *)
Theorem new_file_has_entry_contents rec reading hdr body rest fs fl dl tgt fs1 :
  sanitizeArchivePath tempDir (tar.Name hdr) = inl tgt ->
  tar.Typeflag hdr = tar.TypeReg ->
  existsb (String.eqb tgt) reading = false ->
  lookupPath fs tgt = None ->
  OpenFile proc fs tgt (tar.Mode hdr) = Some fs1 ->
  (N.of_nat (length body) < copyLimit)%N ->
  HasSuffix tgt "layer.tar" = false ->
  loop rec reading (tar.Entry hdr body true rest) fs fl dl
  = loop rec reading rest
         (<[tgt := File (Z.ldiff (Z.land (tar.Mode hdr) 511) (umask proc)) body]> fs)
         (fl ++ [tgt]) dl.
Proof.
  intros Hs Hreg Hguard Hnone Hopen Hlt Hplain.
  pose proof (sanitizeArchivePath_inl _ _ _ Hs) as (_ & _ & Hc).
  assert (fs1 = <[tgt := File (createdMode proc (tar.Mode hdr)) []]> fs) as ->.
  { revert Hopen. unfold OpenFile. rewrite Hnone.
    destruct (lookupPath fs (parentPath tgt)) as [[|? ?]|]; congruence. }
  rewrite <- Hc in Hopen, Hguard.
  rewrite (extractEntries_regular rec reading hdr body true rest fs fl dl tgt _ Hs Hreg
             Hguard Hopen).
  apply N.leb_gt in Hlt. rewrite Hlt, Hplain, Hc. cbn [negb].
  unfold writeFile. rewrite lookup_insert_eq, insert_insert_eq.
  unfold overwrite, createdMode. now rewrite drop_nil, app_nil_r.
Qed.

(** ** The depth of nesting *)

Lemma extractEntries_stable rec1 rec2 reading :
  (forall fs t, rec1 fs t <> OutOfFuel -> rec2 fs t = rec1 fs t) ->
  forall tr fs fl dl,
    loop rec1 reading tr fs fl dl <> OutOfFuel ->
    loop rec2 reading tr fs fl dl = loop rec1 reading tr fs fl dl.
Proof.
  intros Hrec. induction tr as [| | hdr body clean rest IH]; intros fs fl dl;
    cbn [extractEntries]; try reflexivity.
  loop_cases; try reflexivity; try apply IH.
  destruct (rec1 _ s) as [[[fs3 ifl] idl]|msg fs3| |] eqn:Hr.
  - rewrite Hrec by (rewrite Hr; discriminate). rewrite Hr. apply IH.
  - rewrite Hrec by (rewrite Hr; discriminate). now rewrite Hr.
  - congruence.
  - rewrite Hrec by (rewrite Hr; discriminate). now rewrite Hr.
Qed.

Lemma extractTarIn_stable fuel k :
  forall reading fs tarname,
    extractTarIn proc tempDir tarDecode fuel reading fs tarname <> OutOfFuel ->
    extractTarIn proc tempDir tarDecode (fuel + k) reading fs tarname
    = extractTarIn proc tempDir tarDecode fuel reading fs tarname.
Proof.
  induction fuel as [|fuel IH]; intros reading fs tarname; [now cbn|].
  change (S fuel + k)%nat with (S (fuel + k)). cbn [extractTarIn].
  destruct (readFile proc fs (Clean tarname)) as [| |data]; try reflexivity.
  apply extractEntries_stable. intros; now apply IH.
Qed.

Lemma extractEntries_flat_returns rec reading :
  forall tr fs fl dl,
    Forall plainFile (regularTargets tempDir tr) ->
    loop rec reading tr fs fl dl <> OutOfFuel.
Proof.
  induction tr as [| | hdr body clean rest IH]; intros fs fl dl Hplain;
    cbn [extractEntries regularTargets] in *; try discriminate.
  destruct (sanitizeArchivePath tempDir (tar.Name hdr)) as [tgt|e] eqn:Hs; [|now apply IH].
  destruct (Ascii.eqb (tar.Typeflag hdr) tar.TypeDir) eqn:Hd.
  { assert (Ascii.eqb (tar.Typeflag hdr) tar.TypeReg = false) as Hr.
    { apply Ascii.eqb_eq in Hd. now rewrite Hd. }
    rewrite Hr in *.
    destruct (Stat fs tgt); [now apply IH|].
    destruct (MkdirAll fs tgt); [now apply IH | discriminate]. }
  destruct (Ascii.eqb (tar.Typeflag hdr) tar.TypeReg); [|now apply IH].
  apply Forall_cons in Hplain as [Htgt Hplain]. unfold plainFile in Htgt.
  rewrite Htgt.
  loop_cases; try discriminate. now apply IH.
Qed.

(** X19.  An archive none of whose regular files has a target with the
    layer suffix is extracted by one call: the extraction ends, returning
    or in a fatal error, without a nested call. *)
Theorem flat_archive_is_extracted_at_once fuel fs tarname mode data :
  lookupPath fs (Clean tarname) = Some (File mode data) ->
  Forall plainFile (regularTargets tempDir (tarDecode data)) ->
  extractTar proc tempDir tarDecode (S fuel) fs tarname <> OutOfFuel
  /\ extractTar proc tempDir tarDecode (S fuel) fs tarname
     = extractTar proc tempDir tarDecode 1 fs tarname.
Proof.
  intros Hl Hplain.
  assert (extractTar proc tempDir tarDecode 1 fs tarname <> OutOfFuel) as H1.
  { unfold extractTar. cbn [extractTarIn]. unfold readFile. rewrite Hl.
    destruct (mayRead proc mode); [|discriminate].
    now apply extractEntries_flat_returns. }
  pose proof (extractTarIn_stable 1 fuel [] fs tarname H1) as Hs.
  change (1 + fuel)%nat with (S fuel) in Hs. unfold extractTar in *.
  rewrite Hs. now split.
Qed.

End ExtractorProperties.

(* ================================================================== *)
(** * Properties of the matcher *)
(* ================================================================== *)

Module RegexpFacts.
Import Regexp.

Lemma nullable_denotes r : nullable r = true <-> denotes r [].
Proof.
  split.
  - induction r as [| | c | |r1 IH1 r2 IH2|r1 IH1 r2 IH2|r1 IH1]; cbn; intros H;
      try discriminate.
    + constructor.
    + apply andb_true_iff in H as [H1 H2].
      change (@nil ascii) with (@nil ascii ++ []). constructor; auto.
    + apply orb_true_iff in H as [H|H]; [apply d_alt_l | apply d_alt_r]; auto.
    + constructor.
  - intros H. remember [] as w eqn:Hw.
    induction H as [|c|c Hc|r1 r2 u v H1 IH1 H2 IH2|r1 r2 u H1 IH1|r1 r2 u H1 IH1
                    |r1|r1 u v H1 IH1 H2 IH2]; cbn; try discriminate; auto.
    + apply app_eq_nil in Hw as [-> ->]. now rewrite IH1, IH2.
    + now rewrite IH1.
    + rewrite IH1 by assumption. apply orb_true_r.
Qed.

Lemma derive_sound c r : forall s, denotes (derive c r) s -> denotes r (c :: s).
Proof.
  induction r as [| | d | |r1 IH1 r2 IH2|r1 IH1 r2 IH2|r1 IH1]; cbn; intros s H.
  - inversion H.
  - inversion H.
  - destruct (Ascii.eqb c d) eqn:E; inversion H; subst.
    apply Ascii.eqb_eq in E as ->. constructor.
  - destruct (Ascii.eqb c newline) eqn:E; inversion H; subst.
    apply Ascii.eqb_neq in E. now constructor.
  - destruct (nullable r1) eqn:N.
    + inversion H as [| | | | ? ? ? Hl | ? ? ? Hr | |]; subst.
      * inversion Hl; subst. change (c :: u ++ v) with ((c :: u) ++ v).
        constructor; auto.
      * change (c :: s) with ([] ++ c :: s). constructor; auto.
        now apply nullable_denotes.
    + inversion H; subst. change (c :: u ++ v) with ((c :: u) ++ v).
      constructor; auto.
  - inversion H; subst; [apply d_alt_l | apply d_alt_r]; auto.
  - inversion H; subst. change (c :: u ++ v) with ((c :: u) ++ v).
    constructor; auto.
Qed.

Lemma derive_complete c r w :
  denotes r w -> forall s, w = c :: s -> denotes (derive c r) s.
Proof.
  induction 1 as [|d|d Hd|r1 r2 u v H1 IH1 H2 IH2|r1 r2 u H1 IH1|r1 r2 u H1 IH1
                  |r1|r1 u v H1 IH1 H2 IH2]; intros s Hw; cbn.
  - discriminate.
  - injection Hw as -> <-. rewrite Ascii.eqb_refl. constructor.
  - injection Hw as -> <-. apply Ascii.eqb_neq in Hd. rewrite Hd. constructor.
  - destruct u as [|c' u'].
    + cbn in Hw. apply nullable_denotes in H1. rewrite H1. apply d_alt_r. auto.
    + cbn in Hw. injection Hw as -> <-.
      destruct (nullable r1); [apply d_alt_l|]; constructor; auto.
  - apply d_alt_l. auto.
  - apply d_alt_r. auto.
  - discriminate.
  - destruct u as [|c' u'].
    + cbn in Hw. apply (IH2 s Hw).
    + cbn in Hw. injection Hw as -> <-. constructor; auto.
Qed.

Lemma derive_denotes c r s : denotes (derive c r) s <-> denotes r (c :: s).
Proof.
  split; [apply derive_sound | intros H; eapply derive_complete; eauto].
Qed.

(** [matchPrefix] finds a member of the language at the start of the
    input. *)
Lemma matchPrefix_denotes b :
  forall r, matchPrefix r b = true <-> exists u v, b = u ++ v /\ denotes r u.
Proof.
  induction b as [|c b IH]; intros r; cbn [matchPrefix].
  - rewrite orb_false_r, nullable_denotes. split.
    + intros H. now exists [], [].
    + intros (u & v & Huv & H). symmetry in Huv. apply app_eq_nil in Huv as [-> _].
      assumption.
  - rewrite orb_true_iff, nullable_denotes, IH. split.
    + intros [H|(u & v & -> & H)].
      * now exists [], (c :: b).
      * exists (c :: u), v. split; [reflexivity|]. now apply derive_denotes.
    + intros (u & v & Huv & H). destruct u as [|c' u].
      * now left.
      * cbn in Huv. injection Huv as <- ->. right. exists u, v.
        split; [reflexivity|]. now apply derive_denotes.
Qed.

(** [matchAnywhere] finds a member of the language anywhere in the
    input. *)
Lemma matchAnywhere_denotes r b :
  matchAnywhere r b = true
  <-> exists pre mid post, b = pre ++ mid ++ post /\ denotes r mid.
Proof.
  induction b as [|c b IH]; cbn [matchAnywhere].
  - rewrite orb_false_r, matchPrefix_denotes. split.
    + intros (u & v & Huv & H). now exists [], u, v.
    + intros (pre & mid & post & Hb & H). symmetry in Hb.
      apply app_eq_nil in Hb as [-> Hb]. apply app_eq_nil in Hb as [-> ->].
      now exists [], [].
  - rewrite orb_true_iff, matchPrefix_denotes, IH. split.
    + intros [(u & v & Huv & H)|(pre & mid & post & -> & H)].
      * now exists [], u, v.
      * now exists (c :: pre), mid, post.
    + intros (pre & mid & post & Hb & H). destruct pre as [|c' pre].
      * left. now exists mid, post.
      * cbn in Hb. injection Hb as <- ->. right. now exists pre, mid, post.
Qed.

(** ** The parser on patterns without operators *)

Lemma denotes_concat_inv r s w :
  denotes (OpConcat r s) w <-> exists u v, w = u ++ v /\ denotes r u /\ denotes s v.
Proof.
  split.
  - intros H. inversion H; subst. eauto.
  - intros (u & v & -> & H1 & H2). now constructor.
Qed.

Lemma denotes_atom p c :
  plainOrDot p = true ->
  denotes (if Ascii.eqb p "." then OpAnyCharNotNL else OpLiteral p) [c] <-> charMatches p c.
Proof.
  intros _. unfold charMatches. destruct (Ascii.eqb p "."); split; intros H.
  - now inversion H.
  - now constructor.
  - now inversion H.
  - subst. constructor.
Qed.

Lemma denotes_atom_length p w :
  denotes (if Ascii.eqb p "." then OpAnyCharNotNL else OpLiteral p) w -> exists c, w = [c].
Proof. destruct (Ascii.eqb p "."); intros H; inversion H; eauto. Qed.

Lemma parseFrom_plain pattern :
  forallb plainOrDot pattern = true ->
  forall acc atom,
  exists re, parseFrom acc atom false false pattern = Compiled re
    /\ forall w, denotes re w
         <-> exists u v, w = u ++ v /\ denotes (close acc atom) u
                         /\ Forall2 charMatches pattern v.
Proof.
  induction pattern as [|p pattern IH]; intros Hall acc atom.
  - exists (close acc atom). split; [reflexivity|]. intros w. split.
    + intros H. exists w, []. rewrite app_nil_r. repeat split; [assumption | constructor].
    + intros (u & v & -> & H & Hv). inversion Hv. now rewrite app_nil_r.
  - cbn [forallb] in Hall. apply andb_true_iff in Hall as [Hp Hall].
    pose proof Hp as Hp'. unfold plainOrDot in Hp'.
    apply andb_true_iff in Hp' as [Hp' Hmeta].
    apply andb_true_iff in Hp' as [Hp' Hrep].
    apply andb_true_iff in Hp' as [Hascii Hbs].
    apply negb_true_iff in Hmeta, Hrep, Hbs.
    cbn [parseFrom]. rewrite Hascii, Hbs, Hrep, Hmeta. cbn [negb].
    set (a := if Ascii.eqb p "." then OpAnyCharNotNL else OpLiteral p).
    assert (exists re, parseFrom (close acc atom) (Some a) false false pattern = Compiled re
              /\ forall w, denotes re w
                   <-> exists u v, w = u ++ v /\ denotes (close (close acc atom) (Some a)) u
                                   /\ Forall2 charMatches pattern v) as (re & Hre & Hden)
      by apply (IH Hall).
    exists re. split.
    + subst a. destruct (Ascii.eqb p "."); exact Hre.
    + intros w. rewrite Hden. cbn [close]. split.
      * intros (u & v & -> & Hu & Hv). apply denotes_concat_inv in Hu as (u1 & u2 & -> & H1 & H2).
        destruct (denotes_atom_length _ _ H2) as (c & ->).
        exists u1, (c :: v). rewrite <- app_assoc. repeat split; [assumption|].
        constructor; [|assumption]. now apply (denotes_atom p c Hp).
      * intros (u & v & -> & Hu & Hv). inversion Hv as [|? c ? v' Hc Hv']; subst.
        exists (u ++ [c]), v'. rewrite <- app_assoc. repeat split; [|assumption].
        constructor; [assumption|]. now apply (denotes_atom p c Hp).
Qed.

Lemma denotes_empty_inv w : denotes OpEmptyMatch w -> w = [].
Proof. intros H. now inversion H. Qed.

(** A pattern of plain characters and dots compiles, and denotes the
    strings that agree with it character by character. *)
Lemma Compile_plain spec :
  forallb plainOrDot (String.list_ascii_of_string spec) = true ->
  exists re, Compile spec = Compiled re
    /\ forall w, denotes re w <-> Forall2 charMatches (String.list_ascii_of_string spec) w.
Proof.
  intros Hall.
  destruct (parseFrom_plain _ Hall OpEmptyMatch None) as (re & Hre & Hden).
  exists re. split; [exact Hre|]. intros w. rewrite Hden. cbn [close]. split.
  - intros (u & v & -> & Hu & Hv). apply denotes_empty_inv in Hu as ->. assumption.
  - intros H. exists [], w. repeat split; [constructor | assumption].
Qed.

End RegexpFacts.

(** The loop of [checkForSpec] keeps the names that match, in order. *)
Lemma fold_left_matches (keep : string -> bool) fl :
  forall matches,
    fold_left (fun matches name => if keep name then matches ++ [name] else matches)
              fl matches
    = matches ++ List.filter keep fl.
Proof.
  induction fl as [|name fl IH]; intros matches; cbn [fold_left List.filter].
  - now rewrite app_nil_r.
  - rewrite IH. destruct (keep name); [|reflexivity].
    now rewrite <- app_assoc.
Qed.

Lemma checkForSpec_compiled MustCompile spec fl reMatch :
  MustCompile spec = Some reMatch ->
  checkForSpec MustCompile spec fl = Matches (List.filter reMatch fl).
Proof.
  intros Hc. unfold checkForSpec. rewrite Hc. now rewrite fold_left_matches.
Qed.

(** The reference engine on a pattern that it parses. *)
Lemma MustCompile_compiled spec re :
  Regexp.Compile spec = Regexp.Compiled re ->
  Regexp.MustCompile spec = Some (Regexp.Match re).
Proof. intros H. unfold Regexp.MustCompile. now rewrite H. Qed.

(* ================================================================== *)
(** * Properties of the manifest search and of the resolver *)
(* ================================================================== *)

(** C10, as amended.  For a pattern that [regexp.MustCompile] accepts,
    [checkForSpec] returns the names of the list that the compiled
    expression matches, all of them and in the order of the list; for a
    pattern that [regexp.MustCompile] rejects, it panics.  The match is a
    search: with the matcher of the model, for a pattern that it parses
    and names of ASCII characters, a name is matched when some part of
    it, anywhere in it, is in the language of the pattern; and for a
    pattern made of plain characters and dots, as the manifest pattern of
    a root without operators is, that language is the strings that agree
    with the pattern character by character, a dot standing for any
    character but a newline. *)
Theorem checkForSpec_unanchored MustCompile spec fl :
  (forall reMatch,
      MustCompile spec = Some reMatch ->
      checkForSpec MustCompile spec fl = Matches (List.filter reMatch fl))
  /\ (MustCompile spec = None -> checkForSpec MustCompile spec fl = MatchPanic)
  /\ (forall re,
         Regexp.Compile spec = Regexp.Compiled re ->
         checkForSpec Regexp.MustCompile spec fl
         = Matches (List.filter (Regexp.Match re) fl)
         /\ (forall name,
               Regexp.asciiOnly name = true ->
               Regexp.Match re name = true
               <-> exists pre mid post,
                     String.list_ascii_of_string name = pre ++ mid ++ post
                     /\ Regexp.denotes re mid)
         /\ (forallb plainOrDot (String.list_ascii_of_string spec) = true ->
             forall w, Regexp.denotes re w
                       <-> Forall2 charMatches (String.list_ascii_of_string spec) w)).
Proof.
  split; [intros reMatch; apply checkForSpec_compiled|].
  split; [intros H; unfold checkForSpec; now rewrite H|].
  intros re Hc. split; [apply checkForSpec_compiled; now apply MustCompile_compiled|].
  split.
  - intros name _. unfold Regexp.Match. apply RegexpFacts.matchAnywhere_denotes.
  - intros Hplain. destruct (RegexpFacts.Compile_plain spec Hplain) as (re' & Hc' & Hden).
    rewrite Hc in Hc'. injection Hc' as <-. exact Hden.
Qed.

(** The call ended before it appended a tag. *)
Ltac kept_as_it_was :=
  intros [= <- <-]; repeat split; exists []; now rewrite app_nil_r.

Section ResolverProperties.

Variable proc : process.
Variable tempDir : string.
Variable jsonDecode : list ascii -> option json.Value.
Variable MustCompile : string -> option (string -> bool).

(** The loop over the tags touches [RepoTags] only, and appends. *)
Lemma appendRepoTags_fields tags :
  forall img e img',
    appendRepoTags img tags = (e, img') ->
    Name img' = Name img /\ Arch img' = Arch img /\ OS img' = OS img
    /\ FileList img' = FileList img /\ DirList img' = DirList img
    /\ exists added, RepoTags img' = RepoTags img ++ added.
Proof.
  induction tags as [|tag tags IH]; intros img e img'; cbn [appendRepoTags].
  - intros [= <- <-]. repeat split. exists []. now rewrite app_nil_r.
  - destruct (json.assertString tag) as [s|].
    + intros H. apply IH in H as (Hn & Ha & Ho & Hf & Hd & added & Hr).
      cbn in *. repeat split; try assumption.
      exists (s :: added). rewrite Hr, <- app_assoc. reflexivity.
    + intros [= <- <-]. repeat split. exists []. now rewrite app_nil_r.
Qed.

(** When every tag is a string, all of them are appended, in order. *)
Lemma appendRepoTags_strings tags :
  forall img, appendRepoTags img (map json.Str tags)
              = (Returned,
                 mkImageInfo (Name img) (RepoTags img ++ tags) (Arch img) (OS img)
                             (FileList img) (DirList img)).
Proof.
  induction tags as [|tag tags IH]; intros img; cbn [map appendRepoTags json.assertString].
  - rewrite app_nil_r. now destruct img.
  - rewrite IH. cbn. now rewrite <- app_assoc.
Qed.

(** C3. When the manifest pattern matches no path of the file list, or
    more than one, whatever the paths are, [getImageInfo] exits with the
    error of the manifest count; when the manifest file parses to no
    record, or to more than one, [readManifest] exits with the error of
    the record count.  Both leave the image record as it was. *)
Theorem cardinality_errors :
  (forall fs img reMatch,
      MustCompile (Join tempDir "manifest.json") = Some reMatch ->
      length (List.filter reMatch (FileList img)) <> 1%nat ->
      getImageInfo proc tempDir jsonDecode MustCompile fs img
      = (Exited "expecting one manifest.json!", img))
  /\ (forall fs img manifest barr manres,
         getFileBytes proc fs manifest = Bytes barr ->
         jsonDecode barr ≫= json.asMaps = Some manres ->
         length manres <> 1%nat ->
         readManifest proc tempDir jsonDecode fs img manifest
         = (Exited "expecting one config in manifest!", img)).
Proof.
  split.
  - intros fs img reMatch Hm Hlen. unfold getImageInfo.
    rewrite (checkForSpec_compiled _ _ _ _ Hm).
    destruct (List.filter reMatch (FileList img)) as [|m [|m' matches]];
      try reflexivity. now contradict Hlen.
  - intros fs img manifest barr manres Hb Hj Hlen. unfold readManifest.
    rewrite Hb, Hj.
    destruct manres as [|m [|m' manres]]; try reflexivity. now contradict Hlen.
Qed.

(** C5. However [readManifest] ends, the architecture and the operating
    system of the image record are the ones it had, the call not having
    returned, or they come from the config record that the [Config] field
    of the manifest leads to: the architecture is the string under
    [architecture], and the operating system is the string under [os] or,
    in a call that has panicked, the one the record had.  So a call that
    returns has set both from strings of the config; when there is no such
    config record the call does not return and the record is as it was;
    and a config record without a string under either key ends the call in
    a panic. *)
Theorem arch_os_from_config fs img manifest e img' :
  readManifest proc tempDir jsonDecode fs img manifest = (e, img') ->
  ((Arch img' = Arch img /\ OS img' = OS img /\ e <> Returned)
   \/ exists cfgres,
        configOf proc tempDir jsonDecode fs manifest cfgres
        /\ json.assertString (json.mapIndex cfgres "architecture") = Some (Arch img')
        /\ (json.assertString (json.mapIndex cfgres "os") = Some (OS img')
            \/ (OS img' = OS img /\ e = Panicked)))
  /\ ((forall cfgres, ~ configOf proc tempDir jsonDecode fs manifest cfgres) ->
      e <> Returned /\ img' = img)
  /\ (forall cfgres,
         configOf proc tempDir jsonDecode fs manifest cfgres ->
         json.assertString (json.mapIndex cfgres "architecture") = None
         \/ json.assertString (json.mapIndex cfgres "os") = None ->
         e = Panicked).
Proof.
  unfold readManifest.
  destruct (getFileBytes proc fs manifest) as [| |barr] eqn:Hb;
    try (intros [= <- <-]; split; [left; repeat split; discriminate|];
         split; [intros _; split; [discriminate|reflexivity]|];
         intros cfgres (? & ? & ? & ? & ? & _); congruence).
  destruct (jsonDecode barr ≫= json.asMaps) as [manres|] eqn:Hj;
    [|intros [= <- <-]; split; [left; repeat split; discriminate|];
      split; [intros _; split; [discriminate|reflexivity]|];
      intros cfgres (? & ? & ? & ? & ? & ? & _); congruence].
  destruct manres as [|record [|record' manres]];
    try (intros [= <- <-]; split; [left; repeat split; discriminate|];
         split; [intros _; split; [discriminate|reflexivity]|];
         intros cfgres (? & ? & ? & ? & ? & ? & _); congruence).
  unfold readConfig.
  destruct (json.assertString (json.mapIndex record "Config")) as [name|] eqn:Hn;
    [|intros [= <- <-]; split; [left; repeat split; discriminate|];
      split; [intros _; split; [discriminate|reflexivity]|];
      intros cfgres (? & ? & ? & ? & ? & ? & ? & _); congruence].
  destruct (getFileBytes proc fs (Join tempDir name)) as [| |cbarr] eqn:Hc;
    try (intros [= <- <-]; split; [left; repeat split; discriminate|];
         split; [intros _; split; [discriminate|reflexivity]|];
         intros cfgres (? & ? & ? & ? & ? & ? & ? & ? & _); congruence).
  destruct (jsonDecode cbarr ≫= json.asMap) as [cfgres|] eqn:Hm;
    [|intros [= <- <-]; split; [left; repeat split; discriminate|];
      split; [intros _; split; [discriminate|reflexivity]|];
      intros cfgres (? & ? & ? & ? & ? & ? & ? & ? & ?); congruence].
  assert (configOf proc tempDir jsonDecode fs manifest cfgres) as Hcfg.
  { exists barr, record, name, cbarr. repeat split; assumption. }
  assert (forall cfgres', configOf proc tempDir jsonDecode fs manifest cfgres' -> cfgres' = cfgres)
    as Huniq.
  { intros cfgres' (? & ? & ? & ? & ? & ? & ? & ? & ?). congruence. }
  destruct (json.assertString (json.mapIndex cfgres "architecture")) as [arch|] eqn:Ha.
  2:{ intros [= <- <-]. split; [left; repeat split; discriminate|].
      split; [intros Hno; now apply Hno in Hcfg|]. reflexivity. }
  destruct (json.assertString (json.mapIndex cfgres "os")) as [os|] eqn:Ho.
  2:{ intros [= <- <-]. split.
      - right. exists cfgres. repeat split; try assumption. right. now split.
      - split; [intros Hno; now apply Hno in Hcfg|]. reflexivity. }
  destruct (json.assertSlice (json.mapIndex record "RepoTags")) as [tags|].
  2:{ intros [= <- <-]. split.
      - right. exists cfgres. repeat split; try assumption. now left.
      - split; [intros Hno; now apply Hno in Hcfg|].
        intros cfgres' H' [H|H]; apply Huniq in H' as ->; congruence. }
  intros H. apply appendRepoTags_fields in H as (_ & HA & HO & _). cbn in HA, HO.
  split.
  - right. exists cfgres. repeat split; try assumption; [congruence|]. left. congruence.
  - split; [intros Hno; now apply Hno in Hcfg|].
    intros cfgres' H' [H|H]; apply Huniq in H' as ->; congruence.
Qed.

(** A loop over the tags that returns has found strings only, and has
    appended them all. *)
Lemma appendRepoTags_returned tags :
  forall img img',
    appendRepoTags img tags = (Returned, img') ->
    exists strs, tags = map json.Str strs /\ RepoTags img' = RepoTags img ++ strs.
Proof.
  induction tags as [|tag tags IH]; intros img img'; cbn [appendRepoTags].
  - intros [= <-]. exists []. now rewrite app_nil_r.
  - destruct tag as [|b|n|s|vs|ms]; cbn [json.assertString]; try discriminate.
    intros H. apply IH in H as (strs & -> & Hr). exists (s :: strs).
    split; [reflexivity|]. cbn in Hr. now rewrite Hr, <- app_assoc.
Qed.

Lemma appendRepoTags_ending tags :
  forall img e img', appendRepoTags img tags = (e, img') -> e = Returned \/ e = Panicked.
Proof.
  induction tags as [|tag tags IH]; intros img e img'; cbn [appendRepoTags].
  - intros [= <- _]. now left.
  - destruct (json.assertString tag); [apply IH|]. intros [= <- _]. now right.
Qed.


Lemma readManifest_kept fs img manifest e img' :
  readManifest proc tempDir jsonDecode fs img manifest = (e, img') -> inventoryKept img img'.
Proof.
  unfold readManifest.
  destruct (getFileBytes proc fs manifest) as [| |barr];
    try (kept_as_it_was).
  destruct (jsonDecode barr ≫= json.asMaps) as [[|record [|record' manres]]|];
    try (kept_as_it_was).
  unfold readConfig.
  destruct (json.assertString (json.mapIndex record "Config")) as [name|];
    [|kept_as_it_was].
  destruct (getFileBytes proc fs (Join tempDir name)) as [| |cbarr];
    try (kept_as_it_was).
  destruct (jsonDecode cbarr ≫= json.asMap) as [cfgres|];
    [|kept_as_it_was].
  destruct (json.assertString (json.mapIndex cfgres "architecture")) as [arch|];
    [|kept_as_it_was].
  destruct (json.assertString (json.mapIndex cfgres "os")) as [os|];
    [|kept_as_it_was].
  destruct (json.assertSlice (json.mapIndex record "RepoTags")) as [tags|];
    [|kept_as_it_was].
  intros H. apply appendRepoTags_fields in H as (Hn & _ & _ & Hf & Hd & Hr).
  repeat split; assumption.
Qed.

Lemma readManifest_ending fs img manifest e img' :
  getFileBytes proc fs manifest <> ReadFailed ->
  readManifest proc tempDir jsonDecode fs img manifest = (e, img') ->
  e <> Exited "manifest read failed".
Proof.
  unfold readManifest. intros Hread.
  destruct (getFileBytes proc fs manifest) as [| |barr];
    [intros [= <- _]; discriminate | contradiction |].
  destruct (jsonDecode barr ≫= json.asMaps) as [[|record [|record' manres]]|];
    try (intros [= <- _]; discriminate).
  unfold readConfig.
  destruct (json.assertString (json.mapIndex record "Config")) as [name|];
    [|intros [= <- _]; discriminate].
  destruct (getFileBytes proc fs (Join tempDir name)) as [| |cbarr];
    try (intros [= <- _]; discriminate).
  destruct (jsonDecode cbarr ≫= json.asMap) as [cfgres|];
    [|intros [= <- _]; discriminate].
  destruct (json.assertString (json.mapIndex cfgres "architecture")) as [arch|];
    [|intros [= <- _]; discriminate].
  destruct (json.assertString (json.mapIndex cfgres "os")) as [os|];
    [|intros [= <- _]; discriminate].
  destruct (json.assertSlice (json.mapIndex record "RepoTags")) as [tags|];
    [|intros [= <- _]; discriminate].
  intros H. apply appendRepoTags_ending in H as [->| ->]; discriminate.
Qed.

Lemma getImageInfo_kept fs img e img' :
  getImageInfo proc tempDir jsonDecode MustCompile fs img = (e, img') -> inventoryKept img img'.
Proof.
  unfold getImageInfo.
  destruct (checkForSpec _ _ _) as [[|manifest [|manifest' matches]]|];
    try (kept_as_it_was).
  apply readManifest_kept.
Qed.

(** X12.  However [getImageInfo] ends, the name, the file list and the
    directory list of the image record are the ones it had, and the tags
    it had are the first of its tags: the resolver appends tags and
    removes none. *)
Theorem resolver_keeps_inventory fs img e img' :
  getImageInfo proc tempDir jsonDecode MustCompile fs img = (e, img') ->
  Name img' = Name img /\ FileList img' = FileList img /\ DirList img' = DirList img
  /\ exists added, RepoTags img' = RepoTags img ++ added.
Proof. apply getImageInfo_kept. Qed.

(** X13.  A call of [readManifest] that returns has appended to the tags of the
    image record the strings of the [RepoTags] array of the one record of
    the manifest, all of them and in the order of the array. *)
Theorem repo_tags_in_order fs img manifest img' :
  readManifest proc tempDir jsonDecode fs img manifest = (Returned, img') ->
  exists barr record tags,
    getFileBytes proc fs manifest = Bytes barr
    /\ jsonDecode barr ≫= json.asMaps = Some [record]
    /\ json.mapIndex record "RepoTags" = json.Array (map json.Str tags)
    /\ RepoTags img' = RepoTags img ++ tags.
Proof.
  unfold readManifest.
  destruct (getFileBytes proc fs manifest) as [| |barr] eqn:Hb; try discriminate.
  destruct (jsonDecode barr ≫= json.asMaps) as [[|record [|record' manres]]|] eqn:Hj;
    try discriminate.
  unfold readConfig.
  destruct (json.assertString (json.mapIndex record "Config")) as [name|];
    [|discriminate].
  destruct (getFileBytes proc fs (Join tempDir name)) as [| |cbarr]; try discriminate.
  destruct (jsonDecode cbarr ≫= json.asMap) as [cfgres|]; [|discriminate].
  destruct (json.assertString (json.mapIndex cfgres "architecture")) as [arch|];
    [|discriminate].
  destruct (json.assertString (json.mapIndex cfgres "os")) as [os|]; [|discriminate].
  destruct (json.mapIndex record "RepoTags") as [|b|n|s|vs|ms] eqn:Ht;
    cbn [json.assertSlice]; try discriminate.
  intros H. apply appendRepoTags_returned in H as (strs & -> & Hr).
  exists barr, record, strs. repeat split; assumption.
Qed.

(** What [checkForSpec] returns is taken from the list. *)
Lemma checkForSpec_In spec fl matches :
  checkForSpec MustCompile spec fl = Matches matches ->
  forall m, In m matches -> In m fl.
Proof.
  unfold checkForSpec. destruct (MustCompile spec) as [reMatch|]; try discriminate.
  rewrite fold_left_matches. intros [= <-] m Hm. cbn [app] in Hm.
  now apply filter_In in Hm.
Qed.

Lemma charMatches_refl c : charMatches c c.
Proof.
  unfold charMatches. destruct (Ascii.eqb c ".") eqn:E; [|reflexivity].
  apply Ascii.eqb_eq in E as ->. discriminate.
Qed.

Lemma Forall2_charMatches_refl w : Forall2 charMatches w w.
Proof. induction w; constructor; [apply charMatches_refl | assumption]. Qed.

(** X15.  Under a root whose manifest path holds no operator of the pattern
    syntax, the search finds the manifest: a file list of ASCII names that
    holds the manifest path has it among the matches. *)
Theorem manifest_path_is_matched fl :
  forallb plainOrDot (String.list_ascii_of_string (Join tempDir "manifest.json")) = true ->
  forallb Regexp.asciiOnly fl = true ->
  In (Join tempDir "manifest.json") fl ->
  exists matches,
    checkForSpec Regexp.MustCompile (Join tempDir "manifest.json") fl = Matches matches
    /\ In (Join tempDir "manifest.json") matches.
Proof.
  intros Hplain Hascii Hin.
  destruct (RegexpFacts.Compile_plain _ Hplain) as (re & Hc & Hden).
  exists (List.filter (Regexp.Match re) fl).
  split; [apply checkForSpec_compiled; now apply MustCompile_compiled|].
  apply filter_In. split; [exact Hin|].
  unfold Regexp.Match. apply RegexpFacts.matchAnywhere_denotes.
  exists [], (String.list_ascii_of_string (Join tempDir "manifest.json")), [].
  rewrite app_nil_r. split; [reflexivity|].
  apply Hden. apply Forall2_charMatches_refl.
Qed.

(** X14.  A manifest of one record that names a config file, with the strings
    of the architecture and the operating system in the config and an
    array of strings for the tags: [readManifest] returns, with the two
    fields set from the config and the tags appended.  The path of the
    config is the root joined with the name in the manifest, as it is:
    the name does not pass the sanitizer. *)
Theorem resolver_succeeds fs img manifest barr record name cbarr cfgres arch os tags :
  getFileBytes proc fs manifest = Bytes barr ->
  jsonDecode barr ≫= json.asMaps = Some [record] ->
  json.mapIndex record "Config" = json.Str name ->
  getFileBytes proc fs (Join tempDir name) = Bytes cbarr ->
  jsonDecode cbarr ≫= json.asMap = Some cfgres ->
  json.mapIndex cfgres "architecture" = json.Str arch ->
  json.mapIndex cfgres "os" = json.Str os ->
  json.mapIndex record "RepoTags" = json.Array (map json.Str tags) ->
  readManifest proc tempDir jsonDecode fs img manifest
  = (Returned,
     mkImageInfo (Name img) (RepoTags img ++ tags) arch os (FileList img) (DirList img)).
Proof.
  intros Hb Hj Hn Hc Hm Ha Ho Ht. unfold readManifest. rewrite Hb, Hj.
  unfold readConfig. rewrite Hn. cbn [json.assertString]. rewrite Hc, Hm, Ha.
  cbn [json.assertString]. rewrite Ho. cbn [json.assertString]. rewrite Ht.
  cbn [json.assertSlice]. now rewrite appendRepoTags_strings.
Qed.

End ResolverProperties.

(** ** [randString] *)

Lemma letterRunes_letters :
  Forall (fun c => isLetter c = true /\ c <> Separator) letterRunes.
Proof. repeat constructor; discriminate. Qed.

Lemma randRunes_letters Intn :
  (forall i, (Intn i < 52)%nat) ->
  forall n i, exists b,
    randRunes Intn i n = Some b /\ length b = n
    /\ Forall (fun c => isLetter c = true /\ c <> Separator) b.
Proof.
  intros Hdraw. induction n as [|n IH]; intros i; cbn [randRunes].
  - exists []. repeat split. constructor.
  - destruct (lookup_lt_is_Some_2 letterRunes (Intn i)) as (c & Hc); [apply Hdraw|].
    destruct (IH (S i)) as (b & Hb & Hlen & Hall).
    rewrite Hc, Hb. exists (c :: b). repeat split.
    + cbn. now rewrite Hlen.
    + constructor; [|assumption].
      pose proof letterRunes_letters as Hl. rewrite Forall_forall in Hl.
      apply Hl. eapply list_elem_of_lookup_2; eauto.
Qed.

(** X17.  [randString(n)] returns a string of [n] letters of the ASCII
    alphabet, whatever the random source draws within its range: the
    index into the letters is never out of range, and the string holds no
    path separator. *)
Theorem randString_letters Intn n :
  (forall i, (Intn i < 52)%nat) ->
  exists s,
    randString Intn n = Some s
    /\ String.length s = n
    /\ Forall (fun c => isLetter c = true) (String.list_ascii_of_string s)
    /\ noSlash s = true.
Proof.
  intros Hdraw. destruct (randRunes_letters Intn Hdraw n O) as (b & Hb & Hlen & Hall).
  exists (String.string_of_list_ascii b). unfold randString. rewrite Hb.
  split; [reflexivity|]. clear Hb. subst n.
  induction Hall as [|c b [Hc Hs] Hall IH]; [repeat split; constructor|].
  destruct IH as (Hl & Hf & Hn). cbn. repeat split.
  - now rewrite Hl.
  - constructor; assumption.
  - apply Ascii.eqb_neq in Hs. now rewrite Hs.
Qed.

Section InspectorProperties.

Variable proc : process.
Variable tempDir : string.
Variable tarDecode : list ascii -> tar.Reader.
Variable jsonDecode : list ascii -> option json.Value.
Variable MustCompile : string -> option (string -> bool).

(** X16.  When [getImageDetails] gets as far as an image record, the record
    bears the name of the image and the two lists that the extraction
    returned, whatever the resolver did; and the resolver has not failed
    to read the manifest, which is a regular file that the extraction
    wrote. *)
Theorem details_after_extraction fuel fs imageName tarname e img :
  getImageDetails proc tempDir tarDecode jsonDecode MustCompile fuel fs imageName tarname = Ok (e, img) ->
  Name img = imageName
  /\ (exists fs',
         extractTar proc tempDir tarDecode fuel fs tarname = Ok (fs', FileList img, DirList img))
  /\ e <> Exited "manifest read failed".
Proof.
  unfold getImageDetails.
  destruct (extractTar proc tempDir tarDecode fuel fs tarname) as [[[fs' fl] dl]| | |] eqn:Hx;
    try discriminate.
  intros [= H].
  pose proof (getImageInfo_kept proc tempDir jsonDecode MustCompile _ _ _ _ H) as (Hn & Hf & Hd & _).
  cbn in Hn, Hf, Hd. split; [exact Hn|]. split; [exists fs'; now rewrite Hf, Hd|].
  revert H. unfold getImageInfo. cbn [FileList].
  destruct (checkForSpec _ _ fl) as [[|manifest [|manifest' matches]]|] eqn:Hm;
    try (intros [= <- _]; discriminate).
  assert (In manifest fl) as Hin by (eapply checkForSpec_In; [exact Hm | now left]).
  apply extractTarIn_listed in Hx as [Hfl _].
  rewrite Forall_forall in Hfl. apply list_elem_of_In in Hin.
  destruct (Hfl _ Hin) as [(mode & data & Hfile) [Hc _]].
  apply (readManifest_ending proc tempDir jsonDecode fs' _ manifest e img).
  unfold getFileBytes. rewrite Hc. apply readFile_isFile. now exists mode, data.
Qed.

End InspectorProperties.

(* ================================================================== *)
(** * The example images *)
(* ================================================================== *)

Module Examples.
Import Example.

(** C7, as amended.  The minimal image, in one archive and as [docker
    save] lays it out with its layer in an archive of its own: a manifest
    of one record, the config file it names with the architecture amd64
    and the operating system linux, the entry of the directory [etc] and,
    after it, the file [etc/hostname].  Extracted under the root and
    resolved, it gives an image record with that architecture and
    operating system, whose file list holds the path of [etc/hostname]
    under the root. *)
Theorem minimal_image_round_trip :
  sanitizeArchivePath root "etc/hostname" = inl "/tmp/karmor/etc/hostname"
  /\ getImageDetails owner root ustar.decode jsontext.decode Regexp.MustCompile 1
       (freshRoot flatImage) "busybox" tarname
     = Ok (Returned,
           mkImageInfo "busybox" ["busybox:latest"] "amd64" "linux"
             ["/tmp/karmor/manifest.json"; "/tmp/karmor/config.json";
              "/tmp/karmor/etc/hostname"]
             ["/tmp/karmor/etc"])
  /\ getImageDetails owner root ustar.decode jsontext.decode Regexp.MustCompile 2
       (freshRoot image) "busybox" tarname
     = Ok (Returned,
           mkImageInfo "busybox" ["busybox:latest"] "amd64" "linux"
             ["/tmp/karmor/manifest.json"; "/tmp/karmor/config.json";
              "/tmp/karmor/etc/hostname"]
             ["/tmp/karmor/layer0"; "/tmp/karmor/etc"]).
Proof. repeat split; vm_compute; reflexivity. Qed.

(** C7, the claim as stated fails: the archive of the same three files
    without the entry of the directory [etc].  The extractor makes no
    directory for a file, so the file [etc/hostname] cannot be opened and
    the extraction ends in a fatal error, with the manifest and the config
    on disk and no image record. *)
Lemma missing_directory_entry_is_fatal :
  getImageDetails owner root ustar.decode jsontext.decode Regexp.MustCompile 1
    (freshRoot noDirectories) "busybox" tarname
  = Fatal "tar open file" extractedNoDirectories
  /\ Stat extractedNoDirectories "/tmp/karmor/config.json" = true
  /\ Stat extractedNoDirectories "/tmp/karmor/etc" = false.
Proof. repeat split; vm_compute; reflexivity. Qed.

(** C8. The archive [leaking] extracted into the fresh root, and again
    after the root has been emptied: the first run returns the files
    [a], [a], [b], the second the files [a], [b], [a], [b].  The layer
    file lies beside the root, so emptying the root leaves it, and the
    shorter layer written over it without truncation keeps the tail of
    the longer one. *)
Theorem reextraction_differs :
  emptyRoot root tarname (freshRoot leaking) = freshRoot leaking
  /\ extractTar owner root ustar.decode 2 (freshRoot leaking) tarname
     = Ok (extractedLeaking,
           ["/tmp/karmor/a"; "/tmp/karmor/a"; "/tmp/karmor/b"],
           ["/tmp/karmor-cache"])
  /\ exists fs2,
       extractTar owner root ustar.decode 2 (emptyRoot root tarname extractedLeaking) tarname
       = Ok (fs2,
             ["/tmp/karmor/a"; "/tmp/karmor/b"; "/tmp/karmor/a"; "/tmp/karmor/b"],
             ["/tmp/karmor-cache"]).
Proof.
  split; [vm_compute; reflexivity|].
  split; [vm_compute; reflexivity|].
  exists (match extractTar owner root ustar.decode 2
                  (emptyRoot root tarname extractedLeaking) tarname with
          | Ok r => inventoryFS r
          | _ => ∅
          end).
  vm_compute. reflexivity.
Qed.

(** C1. The archive [escaping] extracted into the fresh root.  The name
    of its file holds a traversal element and leads to the directory
    beside the root whose name starts with the name of the root; the
    sanitizer accepts it, since the joined path starts with the path of
    the root, and the extraction writes the file there: outside the
    root. *)
Theorem file_written_beside_root :
  hasTraversal "../karmor-cache/passwd" = true
  /\ sanitizeArchivePath root "../karmor-cache/passwd" = inl "/tmp/karmor-cache/passwd"
  /\ HasPrefix "/tmp/karmor-cache/passwd" (root +:+ "/") = false
  /\ extractTar owner root ustar.decode 1 (freshRoot escaping) tarname
     = Ok (extractedEscaping, ["/tmp/karmor-cache/passwd"], ["/tmp/karmor-cache"])
  /\ freshRoot escaping !! "/tmp/karmor-cache/passwd" = None
  /\ extractedEscaping !! "/tmp/karmor-cache/passwd" = Some (File 420 hostname).
Proof. repeat split; vm_compute; reflexivity. Qed.

Lemma written_paths_start_with_root_witness :
  filesWithin root (freshRoot flatImage) extractedFlat.
Proof.
  apply (written_paths_start_with_root owner root ustar.decode 1%nat
           (freshRoot flatImage) tarname).
  vm_compute. reflexivity.
Defined.

Lemma file_list_in_entry_order_witness :
  exists fs' dl mode data,
    extractTarIn owner root ustar.decode 2 [] (freshRoot image) tarname
    = Ok (fs', ["/tmp/karmor/manifest.json"; "/tmp/karmor/config.json";
                "/tmp/karmor/etc/hostname"], dl)
    /\ lookupPath (freshRoot image) (Clean tarname) = Some (File mode data)
    /\ ["/tmp/karmor/manifest.json"; "/tmp/karmor/config.json";
        "/tmp/karmor/etc/hostname"]
       = specFileList owner root (extractTarIn owner root ustar.decode 1 [Clean tarname])
           (ustar.decode data) (freshRoot image).
Proof.
  assert (extractTarIn owner root ustar.decode 2 [] (freshRoot image) tarname
          = Ok (extractedImage,
                ["/tmp/karmor/manifest.json"; "/tmp/karmor/config.json";
                 "/tmp/karmor/etc/hostname"],
                ["/tmp/karmor/layer0"; "/tmp/karmor/etc"])) as H
    by (vm_compute; reflexivity).
  exists extractedImage, ["/tmp/karmor/layer0"; "/tmp/karmor/etc"].
  destruct (file_list_in_entry_order owner root ustar.decode 1 [] _ _ _ _ _ H)
    as (mode & data & Hl & Hfl).
  exists mode, data. repeat split; assumption.
Defined.

Lemma cardinality_errors_witness :
  getImageInfo owner root jsontext.decode Regexp.MustCompile ∅ twoManifests
  = (Exited "expecting one manifest.json!", twoManifests)
  /\ readManifest owner root jsontext.decode
       (<["/tmp/karmor/manifest.json" := File 420 twoRecords]> ∅) blank
       "/tmp/karmor/manifest.json"
     = (Exited "expecting one config in manifest!", blank).
Proof.
  destruct (cardinality_errors owner root jsontext.decode Regexp.MustCompile) as [H1 H2].
  split.
  - apply (H1 ∅ twoManifests (Regexp.Match manifestPattern)); [reflexivity|].
    vm_compute. discriminate.
  - apply (H2 _ blank _ twoRecords [[]; []]); [reflexivity | reflexivity | discriminate].
Defined.

(** C4, the claim as stated fails: an entry of three bytes, below the
    ceiling, whose contents are cut off.  The copy ends in a read error,
    not in [io.EOF], and the extraction in the fatal error of the copy:
    in the loop, and in the extraction of an archive that ends within the
    contents of its entry. *)
Lemma cut_off_entry_is_fatal :
  (N.of_nat (length hostname) < copyLimit)%N
  /\ extractEntries owner root noLayers []
       (tar.Entry (regular "hostname") hostname false tar.Err) (freshRoot []) [] []
     = Fatal "tar io.Copy()"
             (<["/tmp/karmor/hostname" := File 420 hostname]> (freshRoot []))
  /\ extractTar owner root ustar.decode 1 (freshRoot cutOff) tarname
     = Fatal "tar io.Copy()"
             (<["/tmp/karmor/hostname" := File 420 (String.list_ascii_of_string "bo")]>
                (freshRoot cutOff)).
Proof. repeat split; vm_compute; reflexivity. Qed.

Lemma copy_ceiling_witness :
  extractEntries owner root noLayers []
    (tar.Entry (regular "hostname") hostname true tar.EOF) (freshRoot []) [] []
  = Ok (<["/tmp/karmor/hostname" := File 420 hostname]> (freshRoot []),
        ["/tmp/karmor/hostname"], [])
  /\ extractEntries owner root noLayers []
       (tar.Entry (regular "hostname") (replicate (N.to_nat copyLimit) "x"%char)
                  true tar.EOF) (freshRoot []) [] []
     = Fatal "tar io.Copy()"
         (writeFile (<["/tmp/karmor/hostname" := File 420 []]> (freshRoot []))
                    (Clean "/tmp/karmor/hostname")
                    (take (N.to_nat copyLimit) (replicate (N.to_nat copyLimit) "x"%char)))
  /\ extractEntries owner root noLayers []
       (tar.Entry (regular "hostname") hostname false tar.Err) (freshRoot []) [] []
     = Fatal "tar io.Copy()"
             (<["/tmp/karmor/hostname" := File 420 hostname]> (freshRoot [])).
Proof.
  split; [|split].
  - refine (eq_trans
              (proj1 (proj2 (copy_ceiling owner root noLayers [] (regular "hostname")
                        hostname true
                        tar.EOF (freshRoot []) [] [] "/tmp/karmor/hostname"
                        (<["/tmp/karmor/hostname" := File 420 []]> (freshRoot []))
                        eq_refl eq_refl eq_refl eq_refl)) _ eq_refl) _).
    + reflexivity.
    + vm_compute. reflexivity.
  - apply (proj1 (copy_ceiling owner root noLayers [] (regular "hostname")
                    (replicate (N.to_nat copyLimit) "x"%char) true
                    tar.EOF (freshRoot []) [] [] "/tmp/karmor/hostname"
                    (<["/tmp/karmor/hostname" := File 420 []]> (freshRoot []))
                    eq_refl eq_refl eq_refl eq_refl)).
    rewrite length_replicate, N2Nat.id. apply N.le_refl.
  - refine (eq_trans
              (proj2 (proj2 (copy_ceiling owner root noLayers [] (regular "hostname")
                        hostname false
                        tar.Err (freshRoot []) [] [] "/tmp/karmor/hostname"
                        (<["/tmp/karmor/hostname" := File 420 []]> (freshRoot []))
                        eq_refl eq_refl eq_refl eq_refl)) _ eq_refl) _).
    + reflexivity.
    + vm_compute. reflexivity.
Defined.

Lemma arch_os_from_config_witness :
  readManifest owner root jsontext.decode extractedFlat blank "/tmp/karmor/manifest.json"
  = (Returned, mkImageInfo "busybox" ["busybox:latest"] "amd64" "linux" [] [])
  /\ exists cfgres,
       configOf owner root jsontext.decode extractedFlat "/tmp/karmor/manifest.json" cfgres
       /\ json.assertString (json.mapIndex cfgres "architecture") = Some "amd64"
       /\ json.assertString (json.mapIndex cfgres "os") = Some "linux".
Proof.
  assert (readManifest owner root jsontext.decode extractedFlat blank "/tmp/karmor/manifest.json"
          = (Returned, mkImageInfo "busybox" ["busybox:latest"] "amd64" "linux" [] []))
    as H by (vm_compute; reflexivity).
  split; [exact H|].
  destruct (arch_os_from_config owner root jsontext.decode _ _ _ _ _ H) as ([(_ & _ & Hne)|Hcfg] & _).
  - now contradict Hne.
  - destruct Hcfg as (cfgres & Hc & Ha & [Ho|(_ & Hp)]); [|discriminate].
    exists cfgres. repeat split; assumption.
Defined.



(** C10, the claim as stated fails: a pattern that ends in a backslash
    makes [regexp.MustCompile] panic, so nothing is returned; and the dot
    of the manifest pattern does not match a newline, so a name that
    agrees with the pattern but for a newline in the place of the dot is
    not returned. *)
Lemma checkForSpec_not_every_pattern :
  checkForSpec Regexp.MustCompile (String Regexp.backslash EmptyString) ["manifest.json"]
  = MatchPanic
  /\ checkForSpec Regexp.MustCompile (Join "/t" "manifest.json") [newlineName]
     = Matches [].
Proof. split; vm_compute; reflexivity. Qed.

Lemma checkForSpec_unanchored_witness :
  checkForSpec Regexp.MustCompile (Join root "manifest.json")
    ["/tmp/karmor/manifest.json"; "/tmp/karmor/etc/hostname";
     "/tmp/karmor/old/tmp/karmor/manifest-json.bak"]
  = Matches ["/tmp/karmor/manifest.json";
             "/tmp/karmor/old/tmp/karmor/manifest-json.bak"].
Proof.
  destruct (checkForSpec_unanchored Regexp.MustCompile (Join root "manifest.json")
              ["/tmp/karmor/manifest.json"; "/tmp/karmor/etc/hostname";
               "/tmp/karmor/old/tmp/karmor/manifest-json.bak"]) as (_ & _ & H).
  destruct (H manifestPattern eq_refl) as (Heq & _).
  rewrite Heq. vm_compute. reflexivity.
Defined.

(** ** Instances of the further properties *)

Lemma extraction_keeps_nodes_witness :
  nodesKept (freshRoot flatImage) extractedFlat.
Proof.
  apply (extraction_keeps_nodes owner root ustar.decode 1 (freshRoot flatImage) tarname).
  vm_compute. reflexivity.
Defined.

Lemma listed_paths_exist_witness :
  listedIn root extractedFlat flatFiles ["/tmp/karmor/etc"].
Proof.
  apply (listed_paths_exist owner root ustar.decode 1 (freshRoot flatImage) tarname).
  vm_compute. reflexivity.
Defined.

Lemma flat_archive_inventory_witness :
  flatFiles = regularTargets root (ustar.decode flatImage)
  /\ ["/tmp/karmor/etc"] = dirTargets root (ustar.decode flatImage).
Proof.
  apply (flat_archive_inventory owner root ustar.decode 0 (freshRoot flatImage) tarname
           384 flatImage extractedFlat).
  - vm_compute. reflexivity.
  - vm_compute. repeat constructor.
  - vm_compute. reflexivity.
Defined.

Lemma missing_parent_is_fatal_witness :
  extractEntries owner root noLayers []
    (tar.Entry (regular "etc/hostname") hostname true tar.EOF) (freshRoot []) [] []
  = Fatal "tar open file" (freshRoot []).
Proof.
  apply (missing_parent_is_fatal owner root noLayers [] (regular "etc/hostname") hostname true
           tar.EOF (freshRoot []) [] [] "/tmp/karmor/etc/hostname");
    try reflexivity.
  vm_compute. discriminate.
Defined.

Lemma existing_file_not_truncated_witness :
  extractEntries owner root noLayers []
    (tar.Entry (regular "hostname") hostname true tar.EOF) staleRoot [] []
  = Ok (<["/tmp/karmor/hostname" := File 384 (String.list_ascii_of_string "boxcontent")]>
          staleRoot,
        ["/tmp/karmor/hostname"], []).
Proof.
  exact (existing_file_not_truncated owner root noLayers [] (regular "hostname") hostname
           tar.EOF staleRoot [] [] "/tmp/karmor/hostname" 384
           (String.list_ascii_of_string "oldcontent")
           eq_refl eq_refl eq_refl eq_refl eq_refl eq_refl eq_refl).
Defined.

Lemma new_file_has_entry_contents_witness :
  extractEntries owner root noLayers []
    (tar.Entry (shared "hostname") hostname true tar.EOF) (freshRoot []) [] []
  = Ok (<["/tmp/karmor/hostname" := File 420 hostname]> (freshRoot []),
        ["/tmp/karmor/hostname"], []).
Proof.
  exact (new_file_has_entry_contents owner root noLayers [] (shared "hostname") hostname
           tar.EOF (freshRoot []) [] [] "/tmp/karmor/hostname"
           (<["/tmp/karmor/hostname" := File 420 []]> (freshRoot []))
           eq_refl eq_refl eq_refl eq_refl eq_refl eq_refl eq_refl).
Defined.

Lemma resolver_keeps_inventory_witness :
  Name resolvedFlat = Name listedFlat
  /\ FileList resolvedFlat = FileList listedFlat
  /\ DirList resolvedFlat = DirList listedFlat
  /\ exists added, RepoTags resolvedFlat = RepoTags listedFlat ++ added.
Proof.
  apply (resolver_keeps_inventory owner root jsontext.decode Regexp.MustCompile
           extractedFlat listedFlat Returned).
  vm_compute. reflexivity.
Defined.

Lemma repo_tags_in_order_witness :
  exists barr record tags,
    getFileBytes owner extractedFlat "/tmp/karmor/manifest.json" = Bytes barr
    /\ jsontext.decode barr ≫= json.asMaps = Some [record]
    /\ json.mapIndex record "RepoTags" = json.Array (map json.Str tags)
    /\ RepoTags resolvedFlat = RepoTags listedFlat ++ tags.
Proof.
  apply (repo_tags_in_order owner root jsontext.decode extractedFlat listedFlat
           "/tmp/karmor/manifest.json" resolvedFlat).
  vm_compute. reflexivity.
Defined.

Lemma manifest_path_is_matched_witness :
  exists matches,
    checkForSpec Regexp.MustCompile (Join root "manifest.json") flatFiles
    = Matches matches
    /\ In (Join root "manifest.json") matches.
Proof.
  apply (manifest_path_is_matched root flatFiles); [reflexivity | reflexivity |].
  left. reflexivity.
Defined.

Lemma details_after_extraction_witness :
  Name resolvedFlat = "busybox"
  /\ (exists fs',
         extractTar owner root ustar.decode 1 (freshRoot flatImage) tarname
         = Ok (fs', FileList resolvedFlat, DirList resolvedFlat))
  /\ Returned <> Exited "manifest read failed".
Proof.
  apply (details_after_extraction owner root ustar.decode jsontext.decode
           Regexp.MustCompile 1
           (freshRoot flatImage) "busybox" tarname Returned resolvedFlat).
  vm_compute. reflexivity.
Defined.

Lemma resolver_succeeds_witness :
  sanitizeArchivePath root "../elsewhere/config.json"
  = inr (tainted "../elsewhere/config.json")
  /\ readManifest owner root jsontext.decode strayRoot blank "/tmp/karmor/manifest.json"
     = (Returned, mkImageInfo "busybox" ["busybox:latest"] "amd64" "linux" [] []).
Proof.
  split; [reflexivity|].
  apply (resolver_succeeds owner root jsontext.decode strayRoot blank "/tmp/karmor/manifest.json"
           (jsontext.encode (json.Array [json.Object strayRecord])) strayRecord
           "../elsewhere/config.json" config configRecord "amd64" "linux"
           ["busybox:latest"]);
    vm_compute; reflexivity.
Defined.

Lemma randString_letters_witness :
  exists s,
    randString (fun _ => 7%nat) 8 = Some s
    /\ String.length s = 8%nat
    /\ Forall (fun c => isLetter c = true) (String.list_ascii_of_string s)
    /\ noSlash s = true.
Proof. apply (randString_letters (fun _ => 7%nat) 8). intros _. lia. Defined.

Lemma flat_archive_is_extracted_at_once_witness :
  extractTar owner root ustar.decode 3 (freshRoot flatImage) tarname <> OutOfFuel
  /\ extractTar owner root ustar.decode 3 (freshRoot flatImage) tarname
     = extractTar owner root ustar.decode 1 (freshRoot flatImage) tarname.
Proof.
  apply (flat_archive_is_extracted_at_once owner root ustar.decode 2 (freshRoot flatImage)
           tarname 384 flatImage).
  - vm_compute. reflexivity.
  - vm_compute. repeat constructor.
Defined.

End Examples.
